(** * Football league schedule: the match-status pipeline of [src/App.tsx]

    A shallow embedding of the timestamp parser ([parseWIBDate]), the status
    classifier ([calculateStatus]), the ingestion and refresh steps of
    [useAllMatches], the derived views of [App] (league filter and sort, team
    spotlight, per-league refinement and paging) and the page-number list of
    [Pagination], with the properties the specification states about them.

    Conventions of the embedding.
    - A JavaScript string is held as the bytes of its UTF-8 encoding (Rocq's
      [string]).  Every separator, digit and sign the code looks for is ASCII,
      so splitting, padding and the numeric grammar read the same on bytes as
      on UTF-16 code units.
    - A [Date] is its time value: an integral number of milliseconds, or NaN
      for an Invalid Date.  Time values stay below 2^53 in magnitude, where
      binary64 arithmetic on integers is exact, so they are kept in [Z].
    - The numbers that [Number(...)] reads from the date and time fields are
      binary64 values, modelled exactly (sign, mantissa, exponent) with
      round-to-nearest-even.
    - Code that can throw returns a [result]; the only exceptions this code
      raises or meets are JavaScript [Error] objects, held by their class and
      message.
    - [Array.prototype.sort] is the stable sort of the standard where its
      comparator is a consistent comparator.  Where it is not, the standard
      leaves the order to the engine, and the sorted views take that order
      as a parameter. *)

From Stdlib Require Import ZArith List String Ascii Bool Lia.
From Stdlib Require QArith Qround.
From Stdlib Require Import Sorting.Sorted.
From stdpp Require Import base option list strings gmap.

Local Open Scope string_scope.
Local Open Scope Z_scope.

(** ** Exceptions and the error monad *)

Inductive ErrorClass := ErrorObj | TypeErrorObj | SyntaxErrorObj.

(** A thrown [Error] object: its class and its [message]. *)
Record Exn := mkExn { exn_class : ErrorClass; message : string }.

Inductive result (A : Type) :=
| Ok (a : A)
| Throw (e : Exn).
Arguments Ok {A} a.
Arguments Throw {A} e.

(** Sequencing stops at the first exception; [x ← r; k] is stdpp's notation
    for it. *)
#[global] Instance result_ret : MRet result := fun A a => Ok a.
#[global] Instance result_bind : MBind result := fun A B k r =>
  match r with
  | Ok a => k a
  | Throw e => Throw e
  end.

Definition is_Ok {A} (r : result A) : bool :=
  match r with Ok _ => true | Throw _ => false end.

(** ** Strings *)

Module JSString.

(** [s.split(sep)] for a one-character separator: never empty, one more
    piece than there are separators. *)
Fixpoint split (sep : ascii) (s : string) : list string :=
  match s with
  | EmptyString => [EmptyString]
  | String c rest =>
      if Ascii.eqb c sep then EmptyString :: split sep rest
      else match split sep rest with
           | piece :: pieces => String c piece :: pieces
           | [] => [String c EmptyString]
           end
  end.

Fixpoint repeat_char (c : ascii) (n : nat) : string :=
  match n with
  | O => EmptyString
  | S n' => String c (repeat_char c n')
  end.

(** [s.padStart(len, c)] for a one-character filler. *)
Definition padStart (len : nat) (c : ascii) (s : string) : string :=
  repeat_char c (len - String.length s) ++ s.

Fixpoint is_prefix (p s : string) : bool :=
  match p, s with
  | EmptyString, _ => true
  | String a p', String b s' => Ascii.eqb a b && is_prefix p' s'
  | String _ _, EmptyString => false
  end.

(** [s.includes(q)]: [q] occurs in [s] as a contiguous run. *)
Fixpoint includes (s q : string) : bool :=
  is_prefix q s ||
  match s with
  | EmptyString => false
  | String _ s' => includes s' q
  end.

Fixpoint drop_chars (n : nat) (s : string) : string :=
  match n, s with
  | O, _ => s
  | S n', String _ s' => drop_chars n' s'
  | S _, EmptyString => EmptyString
  end.

Fixpoint rev_onto (s acc : string) : string :=
  match s with
  | EmptyString => acc
  | String c s' => rev_onto s' (String c acc)
  end.

Definition rev (s : string) : string := rev_onto s EmptyString.

(** The code points of WhiteSpace and LineTerminator (ECMA-262 12.2, 12.3),
    each by its UTF-8 bytes: TAB, LF, VT, FF, CR, SP, U+00A0, U+1680,
    U+2000..U+200A, U+2028, U+2029, U+202F, U+205F, U+3000, U+FEFF. *)
Definition bytes (l : list nat) : string :=
  fold_right (fun n s => String (ascii_of_nat n) s) EmptyString l.

Definition white_space : list string :=
  map bytes
    ([ [9]; [10]; [11]; [12]; [13]; [32]; [194; 160]; [225; 154; 128] ]
     ++ map (fun b => [226; 128; b]) [128; 129; 130; 131; 132; 133; 134; 135; 136; 137; 138]
     ++ [ [226; 128; 168]; [226; 128; 169]; [226; 128; 175]; [226; 129; 159];
          [227; 128; 128]; [239; 187; 191] ])%nat%list.

(** The white-space token [s] starts with, if any. *)
Definition leading_space (tokens : list string) (s : string) : option string :=
  find (fun w => is_prefix w s) tokens.

(** Strip leading white space; the fuel is the length of the string. *)
Fixpoint trimStart_fuel (fuel : nat) (s : string) : string :=
  match fuel with
  | O => s
  | S fuel' =>
      match leading_space white_space s with
      | Some w => trimStart_fuel fuel' (drop_chars (String.length w) s)
      | None => s
      end
  end.

Definition trimStart (s : string) : string := trimStart_fuel (String.length s) s.

Fixpoint trimEnd_fuel (fuel : nat) (r : string) : string :=
  match fuel with
  | O => r
  | S fuel' =>
      match leading_space (map rev white_space) r with
      | Some w => trimEnd_fuel fuel' (drop_chars (String.length w) r)
      | None => r
      end
  end.

Definition trimEnd (s : string) : string :=
  rev (trimEnd_fuel (String.length s) (rev s)).

(** [s.trim()]. *)
Definition trim (s : string) : string := trimEnd (trimStart s).

End JSString.

(** ** Numbers: binary64, the string grammar of [Number(s)], [toString] *)

Module Number.

(** A binary64 value.  [Finite sg m e] is [(-1)^sg * m * 2^e]; the values
    that [of_ratio] builds are in normal form: [m = 0] goes with [e = 0],
    a normal number has [2^52 <= m < 2^53] and a subnormal [e = -1074]. *)
Inductive t :=
| NaN
| Infinity (negative : bool)
| Finite (negative : bool) (m : Z) (e : Z).

Definition eqb (x y : t) : bool :=
  match x, y with
  | NaN, NaN => true
  | Infinity a, Infinity b => Bool.eqb a b
  | Finite a m e, Finite b m' e' => Bool.eqb a b && (m =? m') && (e =? e')
  | _, _ => false
  end.

(** [n / d] rounded to the nearest integer, ties to even ([0 <= n], [0 < d]). *)
Definition round_nearest_even (n d : Z) : Z :=
  let q := n / d in
  let r := n mod d in
  if 2 * r <? d then q
  else if d <? 2 * r then q + 1
  else if Z.even q then q else q + 1.

(** [floor (log2 (n / d))] for [0 < n] and [0 < d]. *)
Definition floor_log2 (n d : Z) : Z :=
  let l := Z.log2 n - Z.log2 d in
  if n * 2 ^ Z.max 0 (- l) <? d * 2 ^ Z.max 0 l then l - 1 else l.

(** The binary64 value nearest to the rational [n / d] ([0 <= n], [0 < d]),
    ties to even, overflowing to infinity and underflowing through the
    subnormals to zero. *)
Definition of_ratio (negative : bool) (n d : Z) : t :=
  if n =? 0 then Finite negative 0 0
  else
    let e := Z.max (floor_log2 n d - 52) (-1074) in
    let m := round_nearest_even (n * 2 ^ Z.max 0 (- e)) (d * 2 ^ Z.max 0 e) in
    let '(m, e) := if m =? 2 ^ 53 then (2 ^ 52, e + 1) else (m, e) in
    if m =? 0 then Finite negative 0 0
    else if 971 <? e then Infinity negative
    else Finite negative m e.

(** [m * 10^p] as a fraction. *)
Definition scale10 (m p : Z) : Z * Z :=
  if 0 <=? p then (m * 10 ^ p, 1) else (m, 10 ^ (- p)).

Definition of_decimal (negative : bool) (m p : Z) : t :=
  let '(n, d) := scale10 m p in of_ratio negative n d.

(** *** Digits *)

Definition digit_char (d : Z) : ascii := ascii_of_nat (48 + Z.to_nat d).

Fixpoint digits_fuel (fuel : nat) (n : Z) (acc : string) : string :=
  let acc' := String (digit_char (n mod 10)) acc in
  match fuel with
  | O => acc'
  | S fuel' => if n <? 10 then acc' else digits_fuel fuel' (n / 10) acc'
  end.

(** The decimal digits of [n >= 0], most significant first. *)
Definition digits (n : Z) : string :=
  digits_fuel (Z.to_nat (Z.log2 n)) n EmptyString.

Definition is_digit (c : ascii) : bool :=
  let n := nat_of_ascii c in (48 <=? n)%nat && (n <=? 57)%nat.

Definition digit_value (base : Z) (c : ascii) : option Z :=
  let n := Z.of_nat (nat_of_ascii c) in
  let v := if (48 <=? n) && (n <=? 57) then Some (n - 48)
           else if (97 <=? n) && (n <=? 102) then Some (n - 87)
           else if (65 <=? n) && (n <=? 70) then Some (n - 55)
           else None in
  match v with
  | Some d => if d <? base then Some d else None
  | None => None
  end.

(** The value of a non-empty run of digits in [base]; [None] for an empty
    string or one with another character in it. *)
Fixpoint digits_value_from (base acc : Z) (s : string) : option Z :=
  match s with
  | EmptyString => Some acc
  | String c s' =>
      match digit_value base c with
      | Some d => digits_value_from base (acc * base + d) s'
      | None => None
      end
  end.

Definition digits_value (base : Z) (s : string) : option Z :=
  match s with
  | EmptyString => None
  | _ => digits_value_from base 0 s
  end.

(** The longest run of decimal digits [s] starts with, and what follows. *)
Fixpoint span_digits (s : string) : string * string :=
  match s with
  | EmptyString => (EmptyString, EmptyString)
  | String c s' =>
      if is_digit c
      then let '(ds, rest) := span_digits s' in (String c ds, rest)
      else (EmptyString, s)
  end.

(** *** [Number(s)] for a string: StringToNumber (ECMA-262 7.1.4.1.1) *)

(** ExponentPart: [e] or [E], an optional sign, digits; absent means 0. *)
Definition exponent_part (s : string) : option Z :=
  match s with
  | EmptyString => Some 0
  | String c s' =>
      if Ascii.eqb c "e" || Ascii.eqb c "E" then
        match s' with
        | String "+" ds => digits_value 10 ds
        | String "-" ds => Z.opp <$> digits_value 10 ds
        | _ => digits_value 10 s'
        end
      else None
  end.

(** StrUnsignedDecimalLiteral apart from [Infinity]: digits with an optional
    fraction and exponent, at least one digit before the exponent. *)
Definition unsigned_decimal (negative : bool) (s : string) : t :=
  let '(int_part, rest) := span_digits s in
  let '(frac_part, rest) :=
    match rest with
    | String "." rest' => span_digits rest'
    | _ => (EmptyString, rest)
    end in
  match int_part ++ frac_part with
  | EmptyString => NaN
  | mantissa =>
      match digits_value 10 mantissa, exponent_part rest with
      | Some m, Some ex => of_decimal negative m (ex - Z.of_nat (String.length frac_part))
      | _, _ => NaN
      end
  end.

Definition signed_decimal (negative : bool) (s : string) : t :=
  if String.eqb s "Infinity" then Infinity negative
  else unsigned_decimal negative s.

Definition non_decimal (base : Z) (ds : string) : t :=
  match digits_value base ds with
  | Some n => of_ratio false n 1
  | None => NaN
  end.

(** [Number(s)]: white space around the literal is dropped, the empty
    string is zero, a string outside the grammar is NaN. *)
Definition of_string (s : string) : t :=
  match JSString.trim s with
  | EmptyString => Finite false 0 0
  | String "0" (String "x" ds) | String "0" (String "X" ds) => non_decimal 16 ds
  | String "0" (String "o" ds) | String "0" (String "O" ds) => non_decimal 8 ds
  | String "0" (String "b" ds) | String "0" (String "B" ds) => non_decimal 2 ds
  | String "+" ds => signed_decimal false ds
  | String "-" ds => signed_decimal true ds
  | ds => signed_decimal false ds
  end.

(** *** [x.toString()]: Number::toString in radix 10 (ECMA-262 6.1.6.1.20) *)

(** [10^n <= num / den]. *)
Definition pow10_le (num den n : Z) : bool :=
  if 0 <=? n then 10 ^ n * den <=? num else den <=? num * 10 ^ (- n).

(** The [n] with [10^(n-1) <= num / den < 10^n], for a positive binary64
    value: one more than the number of exponents from [-324] up that lie at
    or below it. *)
Definition decimal_exponent (num den : Z) : Z :=
  let below := List.filter (fun i => pow10_le num den (Z.of_nat i - 324)) (seq 0 633) in
  Z.of_nat (length below) - 324.

(** With [k] digits: the digit string [s] and exponent [n] whose value
    [s * 10^(n-k)] is nearest to [num / den] (ties to the even [s]) among
    those that read back as [x], if there is one. *)
Definition candidate (x : t) (num den n k : Z) : option (Z * Z) :=
  let p := n - k in
  let '(a, b) := if 0 <=? p then (num, den * 10 ^ p) else (num * 10 ^ (- p), den) in
  let lo := a / b in
  let hi := lo + 1 in
  let reads_back s := eqb (of_decimal false s p) x in
  let pick s := if s =? 10 ^ k then Some (10 ^ (k - 1), n + 1) else Some (s, n) in
  match reads_back lo, reads_back hi with
  | true, true =>
      let twice := 2 * (a mod b) in
      if twice <? b then pick lo
      else if b <? twice then pick hi
      else if Z.even lo then pick lo else pick hi
  | true, false => pick lo
  | false, true => pick hi
  | false, false => None
  end.

(** The shortest digit string that reads back as the positive [x = m * 2^e]:
    [(s, n, k)] with [k] least. *)
Definition shortest (m e : Z) : Z * Z * Z :=
  let x := Finite false m e in
  let '(num, den) := if 0 <=? e then (m * 2 ^ e, 1) else (m, 2 ^ (- e)) in
  let n := decimal_exponent num den in
  let found :=
    fold_right
      (fun k later =>
         match candidate x num den n k with
         | Some (s, n') => Some (s, n', k)
         | None => later
         end)
      None
      (map Z.of_nat (seq 1 17)) in
  match found with
  | Some snk => snk
  | None => (m, 0, 0)
  end.

Definition zeros (n : Z) : string := JSString.repeat_char "0" (Z.to_nat n).

Definition take_chars (n : Z) (s : string) : string :=
  String.substring 0 (Z.to_nat n) s.

Definition exponent_suffix (n : Z) : string :=
  String "e" ((if 0 <=? n - 1 then "+" else "-") ++ digits (Z.abs (n - 1))).

Definition toString_positive (m e : Z) : string :=
  let '(s, n, k) := shortest m e in
  let ds := digits s in
  if (k <=? n) && (n <=? 21) then ds ++ zeros (n - k)
  else if (0 <? n) && (n <=? 21) then
    take_chars n ds ++ "." ++ JSString.drop_chars (Z.to_nat n) ds
  else if (-6 <? n) && (n <=? 0) then "0." ++ zeros (- n) ++ ds
  else if k =? 1 then ds ++ exponent_suffix n
  else take_chars 1 ds ++ "." ++ JSString.drop_chars 1 ds ++ exponent_suffix n.

Definition toString (x : t) : string :=
  match x with
  | NaN => "NaN"
  | Infinity false => "Infinity"
  | Infinity true => "-Infinity"
  | Finite negative m e =>
      if m =? 0 then "0"
      else (if negative then "-" else "") ++ toString_positive m e
  end.

End Number.

(** ** Dates *)

Module Date.

(** A Date object by its time value; [Invalid] is the Invalid Date, whose
    time value is NaN. *)
Inductive t :=
| Invalid
| At (tv : Z).

Definition maxTime : Z := 8640000000000000.

(** TimeClip (ECMA-262 21.4.1.31): a time value beyond 8.64e15 ms from the
    epoch is not a date. *)
Definition TimeClip (tv : Z) : t :=
  if Z.abs tv <=? maxTime then At tv else Invalid.

(** [d.getTime()]: [None] is NaN. *)
Definition getTime (d : t) : option Z :=
  match d with
  | Invalid => None
  | At tv => Some tv
  end.

(** [new Date(v)] for a number [v] that is integral or NaN. *)
Definition of_number (v : option Z) : t :=
  match v with
  | Some tv => TimeClip tv
  | None => Invalid
  end.

(** The dates a program can hold: time values inside the clip range. *)
Definition wf (d : t) : Prop :=
  match d with
  | Invalid => True
  | At tv => - maxTime <= tv <= maxTime
  end.

(** [a < b] and [a >= b] on Date objects: both are turned into their time
    values, and every comparison with NaN is false. *)
Definition lt (a b : t) : bool :=
  match getTime a, getTime b with
  | Some x, Some y => x <? y
  | _, _ => false
  end.

Definition ge (a b : t) : bool :=
  match getTime a, getTime b with
  | Some x, Some y => y <=? x
  | _, _ => false
  end.

Definition le (a b : t) : bool := ge b a.

(** *** Day and time arithmetic (ECMA-262 21.4.1.3 to 21.4.1.29) *)

Definition msPerDay : Z := 86400000.

Definition DayFromYear (y : Z) : Z :=
  365 * (y - 1970) + (y - 1969) / 4 - (y - 1901) / 100 + (y - 1601) / 400.

Definition InLeapYear (y : Z) : bool :=
  ((y mod 4 =? 0) && negb (y mod 100 =? 0)) || (y mod 400 =? 0).

(** Days from the start of the year to the start of month [mn] (0 to 11). *)
Definition DayWithinYear (leap : bool) (mn : Z) : Z :=
  nth (Z.to_nat mn) [0; 31; 59; 90; 120; 151; 181; 212; 243; 273; 304; 334] 0
  + (if leap && (2 <=? mn) then 1 else 0).

(** MakeDay: the day number of [date] in month [month] (from 0) of [year];
    months and days beyond their range carry over. *)
Definition MakeDay (year month date : Z) : Z :=
  let ym := year + month / 12 in
  let mn := month mod 12 in
  DayFromYear ym + DayWithinYear (InLeapYear ym) mn + date - 1.

Definition MakeTime (hour min sec ms : Z) : Z :=
  hour * 3600000 + min * 60000 + sec * 1000 + ms.

Definition MakeDate (day time : Z) : Z := day * msPerDay + time.

(** *** [new Date(s)] for a string *)

(** Exactly [n] decimal digits at the head of [s]: their value and the rest. *)
Fixpoint fixed_digits (n : nat) (acc : Z) (s : string) : option (Z * string) :=
  match n with
  | O => Some (acc, s)
  | S n' =>
      match s with
      | String c s' =>
          if Number.is_digit c
          then fixed_digits n' (acc * 10 + (Z.of_nat (nat_of_ascii c) - 48)) s'
          else None
      | EmptyString => None
      end
  end.

Definition expect (c : ascii) (s : string) : option string :=
  match s with
  | String c' s' => if Ascii.eqb c c' then Some s' else None
  | EmptyString => None
  end.

(** Four digits, or a sign and six digits for an expanded year; [-000000]
    is not a year. *)
Definition year_field (s : string) : option (Z * string) :=
  match s with
  | String "+" s' => fixed_digits 6 0 s'
  | String "-" s' =>
      '(y, rest) ← fixed_digits 6 0 s';
      if y =? 0 then None else Some (- y, rest)
  | _ => fixed_digits 4 0 s
  end.

(** The UTC offset that ends the string, in milliseconds: [Z] or a sign
    with [HH:mm]. *)
Definition offset_field (s : string) : option Z :=
  match s with
  | String "Z" EmptyString => Some 0
  | String sign s' =>
      '(h, s1) ← fixed_digits 2 0 s';
      s2 ← expect ":" s1;
      '(m, s3) ← fixed_digits 2 0 s2;
      if negb (String.eqb s3 "") || (23 <? h) || (59 <? m) then None
      else if Ascii.eqb sign "+" then Some (h * 3600000 + m * 60000)
      else if Ascii.eqb sign "-" then Some (- (h * 3600000 + m * 60000))
      else None
  | EmptyString => None
  end.

(** The time value of a string in the date-time form
    [YYYY-MM-DDTHH:mm:ss] followed by a UTC offset, of the Date Time String
    Format (ECMA-262 21.4.1.32), with each field in its range: month 01 to
    12, day 01 to 31, hour 00 to 24 (24 only as 24:00:00), minute and second
    00 to 59. *)
Definition iso_time_value (s : string) : option Z :=
  '(year, s) ← year_field s;
  s ← expect "-" s;
  '(month, s) ← fixed_digits 2 0 s;
  s ← expect "-" s;
  '(day, s) ← fixed_digits 2 0 s;
  s ← expect "T" s;
  '(hour, s) ← fixed_digits 2 0 s;
  s ← expect ":" s;
  '(minute, s) ← fixed_digits 2 0 s;
  s ← expect ":" s;
  '(second, s) ← fixed_digits 2 0 s;
  offset ← offset_field s;
  if (1 <=? month) && (month <=? 12) && (1 <=? day) && (day <=? 31)
     && (hour <=? 24) && (minute <=? 59) && (second <=? 59)
     && ((hour <? 24) || ((minute =? 0) && (second =? 0)))
  then Some (MakeDate (MakeDay year (month - 1) day) (MakeTime hour minute second 0)
             - offset)
  else None.

(** [new Date(s)] on the strings [parseWIBDate] builds.  Every one of them
    has the separators of the date-time form with the offset [+07:00], so
    only that form of the format is read here; a string outside it gives
    the Invalid Date (the formats an engine may accept beyond the standard
    one are left out).  The constructor never throws. *)
Definition of_string (s : string) : t :=
  match iso_time_value s with
  | Some tv => TimeClip tv
  | None => Invalid
  end.

End Date.

(** ** The data model ([App.tsx], lines 4 to 30) *)

Record Team := mkTeam { team_id : Z; name : string }.

Record Teams := mkTeams { home : Team; away : Team }.

Record RawMatch := mkRawMatch {
  match_id : Z;
  date : string;   (* dd/MM/yyyy *)
  time : string;   (* HH:mm (24h) *)
  teams : Teams
}.

Inductive LeagueKey := PremierLeague | LaLiga | Bundesliga | SerieA.

Inductive Status := UPCOMING | LIVE | FINISHED.

(** [RawMatch & { league; kickoff; status }]: the spread copy of the raw
    match with the three derived fields. *)
Record Match := mkMatch {
  raw : RawMatch;
  league : LeagueKey;
  kickoff : Date.t;
  status : Status
}.

(** The string a [LeagueKey] is at run time. *)
Definition league_name (l : LeagueKey) : string :=
  match l with
  | PremierLeague => "Premier League"
  | LaLiga => "La Liga"
  | Bundesliga => "Bundesliga"
  | SerieA => "Serie A"
  end.

Definition PUBLIC_FILES (l : LeagueKey) : string :=
  match l with
  | PremierLeague => "/premier_league.json"
  | LaLiga => "/la_liga.json"
  | Bundesliga => "/bundesliga.json"
  | SerieA => "/serie_a.json"
  end.

(** [Object.keys(PUBLIC_FILES)], in insertion order. *)
Definition league_keys : list LeagueKey := [PremierLeague; LaLiga; Bundesliga; SerieA].

Definition LeagueKey_eqb (a b : LeagueKey) : bool :=
  match a, b with
  | PremierLeague, PremierLeague | LaLiga, LaLiga
  | Bundesliga, Bundesliga | SerieA, SerieA => true
  | _, _ => false
  end.

Definition Status_eqb (a b : Status) : bool :=
  match a, b with
  | UPCOMING, UPCOMING | LIVE, LIVE | FINISHED, FINISHED => true
  | _, _ => false
  end.

(** The order UPCOMING, LIVE, FINISHED. *)
Definition Status_rank (s : Status) : Z :=
  match s with
  | UPCOMING => 0
  | LIVE => 1
  | FINISHED => 2
  end.

Definition Status_le (a b : Status) : Prop := Status_rank a <= Status_rank b.

(** ** The timestamp parser ([parseWIBDate], lines 54 to 65) *)

Definition undefined_toString : Exn :=
  mkExn TypeErrorObj "Cannot read properties of undefined (reading 'toString')".

(** [v.toString()] for an array element that destructuring may have left
    [undefined] ([None]): a method call on [undefined] throws a TypeError. *)
Definition method_toString (v : option Number.t) : result string :=
  match v with
  | Some x => Ok (Number.toString x)
  | None => Throw undefined_toString
  end.

Definition parseWIBDate (dateStr timeStr : string) : result Date.t :=
  let dmy := map Number.of_string (JSString.split "/" dateStr) in
  let d := dmy !! 0%nat in
  let m := dmy !! 1%nat in
  let y := dmy !! 2%nat in
  let hm := map Number.of_string (JSString.split ":" timeStr) in
  let hh := hm !! 0%nat in
  let mm := hm !! 1%nat in
  ys ← method_toString y;
  ms ← method_toString m;
  ds ← method_toString d;
  hhs ← method_toString hh;
  mms ← method_toString mm;
  let iso :=
    JSString.padStart 4 "0" ys ++ "-" ++ JSString.padStart 2 "0" ms ++ "-"
    ++ JSString.padStart 2 "0" ds ++ "T" ++ JSString.padStart 2 "0" hhs ++ ":"
    ++ JSString.padStart 2 "0" mms ++ ":00+07:00" in
  Ok (Date.of_string iso).

(** ** The status classifier ([calculateStatus], lines 67 to 74) *)

Definition matchDurationMs : Z := 110 * 60 * 1000.

Definition calculateStatus (now kickoff : Date.t) : Status :=
  if Date.lt now kickoff then UPCOMING
  else if Date.ge now kickoff
          && Date.lt now (Date.of_number ((fun tv => tv + matchDurationMs) <$> Date.getTime kickoff))
  then LIVE
  else FINISHED.

(** ** Ingestion and refresh ([useAllMatches], lines 115 to 173) *)

(** What [res.json()] gives: a rejection (the body is not JSON), or a value
    whose [matches] property is an array of raw matches ([Some]) or is not
    there to be mapped over ([None]). *)
Inductive JsonBody :=
| NotJson (e : Exn)
| JsonDoc (matches_field : option (list RawMatch)).

(** What [fetch(url)] gives: a rejection, or a response with its [ok] flag
    and its body. *)
Inductive FetchOutcome :=
| FetchRejected (e : Exn)
| Response (ok : bool) (body : JsonBody).

Definition undefined_map : Exn :=
  mkExn TypeErrorObj "Cannot read properties of undefined (reading 'map')".

(** [l.map(f)] for a callback that may throw: the first exception ends it. *)
Fixpoint map_result {A B} (f : A -> result B) (l : list A) : result (list B) :=
  match l with
  | [] => Ok []
  | a :: l' =>
      b ← f a;
      bs ← map_result f l';
      Ok (b :: bs)
  end.

(** The callback of [json.matches.map] (lines 134 to 142). *)
Definition ingest_match (now : Date.t) (l : LeagueKey) (m : RawMatch) : result Match :=
  k ← parseWIBDate (date m) (time m);
  Ok {| raw := m; league := l; kickoff := k; status := calculateStatus now k |}.

(** The async callback run for one league (lines 130 to 144). *)
Definition league_task (now : Date.t) (l : LeagueKey) (fetched : FetchOutcome)
  : result (list Match) :=
  match fetched with
  | FetchRejected e => Throw e
  | Response ok body =>
      if negb ok then Throw (mkExn ErrorObj ("Gagal mengambil data " ++ league_name l))
      else
        match body with
        | NotJson e => Throw e
        | JsonDoc None => Throw undefined_map
        | JsonDoc (Some ms) => map_result (ingest_match now l) ms
        end
  end.

(** [Promise.all] over the four league tasks: rejected with the reason of the
    task that rejects first in [settle_order] (the order in which the tasks
    settle), else fulfilled with the values in the order of the keys. *)
Fixpoint first_rejection {A} (task : LeagueKey -> result A) (settle_order : list LeagueKey)
  : option Exn :=
  match settle_order with
  | [] => None
  | l :: later =>
      match task l with
      | Throw e => Some e
      | Ok _ => first_rejection task later
      end
  end.

Definition promise_all {A} (task : LeagueKey -> result A) (settle_order : list LeagueKey)
  : result (list A) :=
  match first_rejection task settle_order with
  | Some e => Throw e
  | None => map_result task league_keys
  end.

(** The state of the hook: [matches], [loading], [error]. *)
Record HookState := mkHookState {
  matches : list Match;
  loading : bool;
  error : option string
}.

Definition initial_state : HookState :=
  {| matches := []; loading := true; error := None |}.

(** The outcome of the [try] block of [load] before anything is committed. *)
Definition load_result (now : Date.t) (fetched : LeagueKey -> FetchOutcome)
    (settle_order : list LeagueKey) : result (list Match) :=
  entries ← promise_all (fun l => league_task now l (fetched l)) settle_order;
  Ok (concat entries).

(** [load()] (lines 126 to 154) on the state: [now] is read once, the
    collection or the error message is committed unless the effect was
    cleaned up before the promise settled ([cancelled]). *)
Definition load (now : Date.t) (fetched : LeagueKey -> FetchOutcome)
    (settle_order : list LeagueKey) (cancelled : bool) (st : HookState) : HookState :=
  if cancelled then st
  else
    match load_result now fetched settle_order with
    | Ok ms => {| matches := ms; loading := false; error := error st |}
    | Throw e => {| matches := matches st; loading := false; error := Some (message e) |}
    end.

(** One tick of the refresher (lines 156 to 165): every status is classified
    again from the stored [kickoff]. *)
Definition refresh_match (now : Date.t) (m : Match) : Match :=
  {| raw := raw m; league := league m; kickoff := kickoff m;
     status := calculateStatus now (kickoff m) |}.

Definition tick (now : Date.t) (st : HookState) : HookState :=
  {| matches := map (refresh_match now) (matches st);
     loading := loading st; error := error st |}.

(** ** Arrays *)

Module JSArray.

Section Sort.
Context {A : Type}.
(** The comparator's number: [None] is NaN. *)
Variable comparefn : A -> A -> option Z.

(** SortCompare (ECMA-262 23.1.3.30.2): a NaN from the comparator counts
    as [0]. *)
Definition SortCompare (x y : A) : Z := default 0 (comparefn x y).

(** The comparator does not ask for [x] to go after [y]. *)
Definition ordered (x y : A) : Prop := SortCompare x y <= 0.

(** The comparator gives [x] and [y] the same rank. *)
Definition tied (x y : A) : bool := (SortCompare x y <=? 0) && (SortCompare y x <=? 0).

(** [x], which came before every element of the sorted [l], goes in front
    of the first element it does not compare above. *)
Fixpoint insert (x : A) (l : list A) : list A :=
  match l with
  | [] => [x]
  | y :: l' => if SortCompare x y <=? 0 then x :: y :: l' else y :: insert x l'
  end.

(** The stable insertion sort by [SortCompare]. *)
Definition stable_sort (l : list A) : list A := fold_right insert [] l.

(** The conditions of a consistent comparator (ECMA-262 23.1.3.30) at three
    elements: every call returns a number that is not NaN, an element
    compares equal to itself, "equal" is symmetric and transitive, and
    "below" and "above" are transitive. *)
Definition consistent_at (a b c : A) : bool :=
  match comparefn a a, comparefn a b, comparefn b a, comparefn b c, comparefn a c with
  | Some aa, Some ab, Some ba, Some bc, Some ac =>
      (aa =? 0)
      && implb (ab =? 0) (ba =? 0)
      && implb ((ab =? 0) && (bc =? 0)) (ac =? 0)
      && implb ((ab <? 0) && (bc <? 0)) (ac <? 0)
      && implb ((0 <? ab) && (0 <? bc)) (0 <? ac)
  | _, _, _, _, _ => false
  end.

(** [comparefn] is a consistent comparator for the elements of [l]. *)
Definition consistent (l : list A) : bool :=
  forallb (fun a => forallb (fun b => forallb (fun c => consistent_at a b c) l) l) l.

(** The order the engine leaves the array in when the comparator is not
    consistent: the standard calls it implementation-defined, and engines
    differ. *)
Variable engine : list A -> list A.

(** [l.sort(comparefn)].  The standard asks for a stable sort, and for a
    consistent comparator that fixes the result, whatever algorithm the
    engine runs: it is the list that the insertion sort computes.  For a
    comparator that is not consistent the order is the engine's. *)
Definition sort (l : list A) : list A :=
  if consistent l then stable_sort l else engine l.
End Sort.

(** [l.slice(start, end)]: a negative index counts from the end, and both
    are clamped to the array. *)
Definition slice {A} (start end_ : Z) (l : list A) : list A :=
  let len := Z.of_nat (length l) in
  let clamp i := if i <? 0 then Z.max (len + i) 0 else Z.min i len in
  let k := clamp start in
  let final := clamp end_ in
  take (Z.to_nat (final - k)) (drop (Z.to_nat k) l).

(** The values [i] takes in [for (let i = a; i <= b; i++)]. *)
Definition range (a b : Z) : list Z :=
  map (fun i => a + Z.of_nat i) (seq 0 (Z.to_nat (b - a + 1))).

End JSArray.

(** ** Derived views ([App], lines 441 to 554 and 706 to 719) *)

Definition is_finished (m : Match) : bool := Status_eqb (status m) FINISHED.

(** The comparator of both sorts (lines 464 to 469 and 491 to 496).  The
    difference of two time values can pass 2^53 and be rounded, but it keeps
    its sign, which is all the sort reads; with an Invalid Date it is NaN. *)
Definition finished_last (a b : Match) : option Z :=
  if is_finished a && negb (is_finished b) then Some 1
  else if is_finished b && negb (is_finished a) then Some (-1)
  else
    x ← Date.getTime (kickoff a);
    y ← Date.getTime (kickoff b);
    Some (x - y).

(** [selectedLeagues : Set<LeagueKey | 'ALL'>], a set of strings. *)
Definition has (s : gset string) (x : string) : bool := bool_decide (x ∈ s).

(** The league-filtered sorted list (lines 458 to 470).  [engine] is the
    platform: the order its [sort] gives where the standard leaves it open. *)
Definition filtered (engine : list Match -> list Match)
    (matches : list Match) (selectedLeagues : gset string) : list Match :=
  JSArray.sort finished_last engine
    (List.filter
       (fun m => if has selectedLeagues "ALL" then true
                 else has selectedLeagues (league_name (league m)))
       matches).

Definition plays (team : string) (m : Match) : bool :=
  String.eqb (name (home (teams (raw m)))) team
  || String.eqb (name (away (teams (raw m)))) team.

(** The spotlight of a team (lines 483 to 498), on the same platform. *)
Definition teamMatches (engine : list Match -> list Match)
    (matches : list Match) (selectedTeam : string) : list Match :=
  if String.eqb selectedTeam "" then []
  else JSArray.slice 0 4
         (JSArray.sort finished_last engine (List.filter (plays selectedTeam) matches)).

(** [groupedMatches] (lines 501 to 519): the filtered list split by league,
    leagues in the order of the keys, empty groups dropped. *)
Definition groupedMatches (filtered : list Match) : list (string * list Match) :=
  List.filter (fun g => negb (Nat.eqb (length (snd g)) 0))
    (map (fun l => (league_name l,
                    List.filter (fun m => LeagueKey_eqb (league m) l) filtered))
         league_keys).

Inductive StatusFilter := FilterALL | FilterLIVE | FilterFINISHED.

Definition MATCHES_PER_PAGE : Z := 6.

Section Refinement.
(** [String.prototype.toLowerCase] follows the Unicode case mappings; the
    views only need it to be a function on strings. *)
Variable toLowerCase : string -> string.

Variable leagueStatusFilters : gmap string StatusFilter.
Variable leagueSearchQueries : gmap string string.

(** The callback of the filter in [getFilteredLeagueMatches]. *)
Definition passes (statusFilter : StatusFilter) (searchQuery : string) (m : Match) : bool :=
  if match statusFilter with
     | FilterALL => false
     | FilterLIVE => negb (Status_eqb (status m) LIVE)
     | FilterFINISHED => negb (Status_eqb (status m) FINISHED)
     end
  then false
  else if negb (String.eqb searchQuery "") then
    let homeMatch := JSString.includes (toLowerCase (name (home (teams (raw m))))) searchQuery in
    let awayMatch := JSString.includes (toLowerCase (name (away (teams (raw m))))) searchQuery in
    if negb homeMatch && negb awayMatch then false else true
  else true.

Definition getFilteredLeagueMatches (leagueName : string) (matches : list Match)
  : list Match :=
  let statusFilter := default FilterALL (leagueStatusFilters !! leagueName) in
  let searchQuery :=
    toLowerCase (JSString.trim (default "" (leagueSearchQueries !! leagueName))) in
  List.filter (passes statusFilter searchQuery) matches.
End Refinement.

(** ** Paging (lines 711 to 719 and 552 to 554) *)

(** [leaguePages[leagueName] || 1]: a missing entry and the page [0] both
    give page 1. *)
Definition currentPage (leaguePages : gmap string Z) (leagueName : string) : Z :=
  match leaguePages !! leagueName with
  | Some p => if p =? 0 then 1 else p
  | None => 1
  end.

(** [Math.ceil(a / b)] for integers [0 <= a] and [0 < b]: the ceiling of the
    exact quotient (for an array length and [b = 6] the binary64 quotient is
    never rounded across an integer). *)
Definition Math_ceil_div (a b : Z) : Z := Qround.Qceiling (QArith_base.Qmake a (Z.to_pos b)).

Definition totalPages (filteredMatches : list Match) : Z :=
  Math_ceil_div (Z.of_nat (length filteredMatches)) MATCHES_PER_PAGE.

Definition startIndex (page : Z) : Z := (page - 1) * MATCHES_PER_PAGE.

Definition displayMatches (filteredMatches : list Match) (page : Z) : list Match :=
  JSArray.slice (startIndex page) (startIndex page + MATCHES_PER_PAGE) filteredMatches.

(** The effect that follows a change of any filter: [setLeaguePages({})]. *)
Definition reset_pages (leaguePages : gmap string Z) : gmap string Z := ∅.

(** ** The page-number list ([Pagination], lines 335 to 373) *)

Inductive PageItem :=
| Page (n : Z)
| Ellipsis.   (* the string '...' *)

Definition getVisiblePages (currentPage totalPages : Z) : list PageItem :=
  let showEllipsis := 7 <? totalPages in
  if negb showEllipsis then map Page (JSArray.range 1 totalPages)
  else if currentPage <=? 4 then
    map Page (JSArray.range 1 5) ++ [Ellipsis] ++ [Page totalPages]
  else if totalPages - 3 <=? currentPage then
    [Page 1] ++ [Ellipsis] ++ map Page (JSArray.range (totalPages - 4) totalPages)
  else
    [Page 1] ++ [Ellipsis]
    ++ map Page (JSArray.range (currentPage - 1) (currentPage + 1))
    ++ [Ellipsis] ++ [Page totalPages].

(** The component draws nothing for a single page. *)
Definition Pagination (currentPage totalPages : Z) : option (list PageItem) :=
  if totalPages <=? 1 then None else Some (getVisiblePages currentPage totalPages).

(** ** Vocabulary of the statements *)

(** The ways the document of one league can fail in [league_task]: the fetch
    is rejected, the response is not [ok], the body is not JSON, it has no
    [matches] array, or the parser throws on one of its matches. *)
Definition document_fails (fetched : FetchOutcome) : Prop :=
  match fetched with
  | FetchRejected _ => True
  | Response ok body =>
      ok = false
      \/ match body with
         | NotJson _ => True
         | JsonDoc None => True
         | JsonDoc (Some ms) =>
             exists m, In m ms /\ is_Ok (parseWIBDate (date m) (time m)) = false
         end
  end.

(** The date string has its three pieces and the time string its two. *)
Definition enough_pieces (dateStr timeStr : string) : bool :=
  (3 <=? length (JSString.split "/" dateStr))%nat
  && (2 <=? length (JSString.split ":" timeStr))%nat.

(** Every character of [s] satisfies [ok]. *)
Fixpoint only_chars (ok : ascii -> bool) (s : string) : bool :=
  match s with
  | EmptyString => true
  | String c s' => ok c && only_chars ok s'
  end.

(** The characters of a string in the date-time form. *)
Definition iso_char (c : ascii) : bool :=
  Number.is_digit c || Ascii.eqb c "+" || Ascii.eqb c "-" || Ascii.eqb c ":"
  || Ascii.eqb c "T" || Ascii.eqb c "Z".

(** Two matches have the same sort rank: both finished or both not, and the
    same kickoff. *)
Definition same_rank (a b : Match) : bool :=
  Bool.eqb (is_finished a) (is_finished b)
  && match kickoff a, kickoff b with
     | Date.At x, Date.At y => x =? y
     | Date.Invalid, Date.Invalid => true
     | _, _ => false
     end.

Definition valid_kickoff (m : Match) : Prop := kickoff m <> Date.Invalid.

(** The comparator of the views does not ask for [a] to go after [b]. *)
Definition before (a b : Match) : Prop := JSArray.ordered finished_last a b.

(** ** Sample data *)

Module Sample.

Definition real_madrid : Team := mkTeam 541 "Real Madrid".
Definition barcelona : Team := mkTeam 529 "Barcelona".
Definition sevilla : Team := mkTeam 536 "Sevilla".
Definition arsenal : Team := mkTeam 42 "Arsenal".
Definition chelsea : Team := mkTeam 49 "Chelsea".

(** Midnight of 1 January 2026, WIB. *)
Definition now : Date.t := Date.At 1767200400000.

Definition march : RawMatch := mkRawMatch 1 "01/03/2025" "20:00" (mkTeams real_madrid barcelona).
Definition january : RawMatch := mkRawMatch 3 "01/01/2025" "20:00" (mkTeams sevilla real_madrid).
Definition next_march : RawMatch := mkRawMatch 4 "15/03/2026" "20:00" (mkTeams barcelona real_madrid).
Definition london : RawMatch := mkRawMatch 1 "14/03/2026" "19:30" (mkTeams arsenal chelsea).

(** Letters where the numbers should be. *)
Definition letters : RawMatch := mkRawMatch 2 "aa/bb/cccc" "10:00" (mkTeams real_madrid sevilla).
(** The wrong separator in the date. *)
Definition dashes : RawMatch := mkRawMatch 6 "2025-01-01" "10:00" (mkTeams real_madrid sevilla).

Definition document (ms : list RawMatch) : FetchOutcome := Response true (JsonDoc (Some ms)).

(** Each league answers; La Liga has the match with letters in its date
    between two well-formed ones. *)
Definition with_letters (l : LeagueKey) : FetchOutcome :=
  match l with
  | PremierLeague => document [london]
  | LaLiga => document [march; letters; january]
  | Bundesliga => document []
  | SerieA => document []
  end.

(** La Liga has a date written with dashes. *)
Definition with_dashes (l : LeagueKey) : FetchOutcome :=
  match l with
  | PremierLeague => document [london]
  | LaLiga => document [march; dashes; january]
  | Bundesliga => document []
  | SerieA => document []
  end.

(** Serie A answers 404, the other three are fine. *)
Definition one_down (l : LeagueKey) : FetchOutcome :=
  match l with
  | PremierLeague => document [london]
  | LaLiga => document [march; january; next_march]
  | Bundesliga => document []
  | SerieA => Response false (NotJson (mkExn SyntaxErrorObj "Unexpected token '<'"))
  end.

Definition all_fine (l : LeagueKey) : FetchOutcome :=
  match l with
  | PremierLeague => document [london]
  | LaLiga => document [march; january; next_march]
  | Bundesliga => document []
  | SerieA => document []
  end.

Definition all_leagues : gset string := {["ALL"]}.

(** The collection that the load of [with_letters] commits. *)
Definition london_match : Match :=
  {| raw := london; league := PremierLeague;
     kickoff := Date.At 1773491400000; status := UPCOMING |}.
Definition march_match : Match :=
  {| raw := march; league := LaLiga;
     kickoff := Date.At 1740834000000; status := FINISHED |}.
Definition letters_match : Match :=
  {| raw := letters; league := LaLiga; kickoff := Date.Invalid; status := FINISHED |}.
Definition january_match : Match :=
  {| raw := january; league := LaLiga;
     kickoff := Date.At 1735736400000; status := FINISHED |}.
Definition next_march_match : Match :=
  {| raw := next_march; league := LaLiga;
     kickoff := Date.At 1773579600000; status := UPCOMING |}.

(** A match whose home team has the empty name. *)
Definition nameless_match : Match :=
  {| raw := mkRawMatch 7 "14/03/2026" "19:30" (mkTeams (mkTeam 0 "") chelsea);
     league := PremierLeague; kickoff := Date.At 1773491400000; status := UPCOMING |}.

(** Three more matches of Real Madrid, for a spotlight with more than four
    candidates. *)
Definition april : RawMatch := mkRawMatch 8 "01/04/2025" "20:00" (mkTeams real_madrid sevilla).
Definition next_april : RawMatch := mkRawMatch 9 "15/04/2026" "20:00" (mkTeams real_madrid barcelona).
Definition next_may : RawMatch := mkRawMatch 10 "15/05/2026" "20:00" (mkTeams sevilla real_madrid).

Definition april_match : Match :=
  {| raw := april; league := LaLiga;
     kickoff := Date.At 1743512400000; status := FINISHED |}.
Definition next_april_match : Match :=
  {| raw := next_april; league := LaLiga;
     kickoff := Date.At 1776258000000; status := UPCOMING |}.
Definition next_may_match : Match :=
  {| raw := next_may; league := LaLiga;
     kickoff := Date.At 1778850000000; status := UPCOMING |}.

(** A collection in which Real Madrid plays six times. *)
Definition season : list Match :=
  [london_match; march_match; january_match; next_march_match;
   april_match; next_april_match; next_may_match].

End Sample.

(** * Properties *)

(** ** The built-ins on known values *)

(** [Number(s).toString()] as an engine prints it. *)
Example Number_round_trips :
  map (fun s => Number.toString (Number.of_string s))
    ["07"; "7"; ""; " 12 "; "aa"; "0x10"; "1e3"; "0.1"; "1e21"; "-5"; "1.50";
     "123456789012345678901"; "9007199254740993"; "1e-7"; "5e-324"; "1e400"; "Infinity"]
  = ["7"; "7"; "0"; "12"; "NaN"; "16"; "1000"; "0.1"; "1e+21"; "-5"; "1.5";
     "123456789012345680000"; "9007199254740992"; "1e-7"; "5e-324"; "Infinity"; "Infinity"].
Proof. vm_compute. reflexivity. Qed.

Example split_pieces :
  map (JSString.split "/") ["01/02/2025"; ""; "2025-01-01"; "1/2/"]
  = [["01"; "02"; "2025"]; [""]; ["2025-01-01"]; ["1"; "2"; ""]].
Proof. reflexivity. Qed.

(** Midnight of 1 January 2025 in WIB is 17:00 UTC of the day before; the
    epoch itself is 07:00 WIB; 24:00 is the next midnight; a thirteenth month
    is not a date. *)
Example parseWIBDate_known_instants :
  parseWIBDate "01/01/2025" "00:00" = Ok (Date.At 1735664400000)
  /\ parseWIBDate "01/01/1970" "07:00" = Ok (Date.At 0)
  /\ parseWIBDate "31/12/1999" "24:00" = parseWIBDate "01/01/2000" "00:00"
  /\ parseWIBDate "29/02/2024" "23:59" = Ok (Date.At 1709225940000)
  /\ parseWIBDate "01/13/2025" "10:00" = Ok Date.Invalid
  /\ parseWIBDate "01/01/2025" "10:60" = Ok Date.Invalid.
Proof. repeat split; vm_compute; reflexivity. Qed.

(** The four instants the specification lists around the live window. *)
Example calculateStatus_boundaries :
  let kickoff := 1735736400000 in
  calculateStatus (Date.At kickoff) (Date.At kickoff) = LIVE
  /\ calculateStatus (Date.At (kickoff - 1000)) (Date.At kickoff) = UPCOMING
  /\ calculateStatus (Date.At (kickoff + 110 * 60 * 1000)) (Date.At kickoff) = FINISHED
  /\ calculateStatus (Date.At (kickoff + 110 * 60 * 1000 - 1000)) (Date.At kickoff) = LIVE.
Proof. repeat split; vm_compute; reflexivity. Qed.

(** The three further matches of [Sample.season], as a load stamps them. *)
Example ingest_match_season :
  ingest_match Sample.now LaLiga Sample.april = Ok Sample.april_match
  /\ ingest_match Sample.now LaLiga Sample.next_april = Ok Sample.next_april_match
  /\ ingest_match Sample.now LaLiga Sample.next_may = Ok Sample.next_may_match.
Proof. repeat split; vm_compute; reflexivity. Qed.

(** ** The status classifier *)

Lemma TimeClip_in_range (tv : Z) :
  - Date.maxTime <= tv <= Date.maxTime -> Date.TimeClip tv = Date.At tv.
Proof.
  intros H. unfold Date.TimeClip.
  destruct (Z.leb_spec (Z.abs tv) Date.maxTime) as [_ | Hgt]; [reflexivity | lia].
Qed.

Lemma TimeClip_out_of_range (tv : Z) :
  Date.maxTime < tv -> Date.TimeClip tv = Date.Invalid.
Proof.
  intros H. unfold Date.TimeClip.
  destruct (Z.leb_spec (Z.abs tv) Date.maxTime) as [Hle | _]; [lia | reflexivity].
Qed.

(** The classifier on two valid dates, when the end of the live window is
    itself a date. *)
Lemma calculateStatus_At (now kickoff : Z) :
  - Date.maxTime <= kickoff + matchDurationMs <= Date.maxTime ->
  calculateStatus (Date.At now) (Date.At kickoff) =
    if now <? kickoff then UPCOMING
    else if now <? kickoff + matchDurationMs then LIVE
    else FINISHED.
Proof.
  intros Hend. unfold calculateStatus, Date.lt, Date.ge. cbn [Date.getTime fmap option_fmap option_map Date.of_number].
  rewrite TimeClip_in_range by exact Hend. cbn [Date.getTime].
  destruct (Z.ltb_spec now kickoff) as [Hlt | Hge]; [reflexivity |].
  destruct (Z.leb_spec kickoff now) as [_ | Hlt]; [| lia].
  reflexivity.
Qed.

(** Every comparison with the Invalid Date is false, so an invalid kickoff is
    FINISHED at every instant, and so is every kickoff at an invalid [now]. *)
Lemma calculateStatus_Invalid_kickoff (now : Date.t) :
  calculateStatus now Date.Invalid = FINISHED.
Proof. destruct now; reflexivity. Qed.

Lemma calculateStatus_Invalid_now (kickoff : Date.t) :
  calculateStatus Date.Invalid kickoff = FINISHED.
Proof. reflexivity. Qed.

(** The classifier on valid dates, whatever the kickoff: the live window is
    empty when its end is not a date. *)
Lemma calculateStatus_At_any (now kickoff : Z) :
  calculateStatus (Date.At now) (Date.At kickoff) =
    if now <? kickoff then UPCOMING
    else if (Z.abs (kickoff + matchDurationMs) <=? Date.maxTime)
            && (now <? kickoff + matchDurationMs) then LIVE
    else FINISHED.
Proof.
  unfold calculateStatus, Date.lt, Date.ge.
  cbn [Date.getTime fmap option_fmap option_map Date.of_number]. unfold Date.TimeClip.
  destruct (Z.ltb_spec now kickoff) as [Hlt | Hge]; [reflexivity |].
  destruct (Z.leb_spec kickoff now) as [_ | Hlt]; [| lia].
  destruct (Z.abs (kickoff + matchDurationMs) <=? Date.maxTime); reflexivity.
Qed.

Lemma calculateStatus_monotone (now1 now2 kickoff : Date.t) :
  Date.le now1 now2 = true ->
  Status_le (calculateStatus now1 kickoff) (calculateStatus now2 kickoff).
Proof.
  destruct now1 as [| n1], now2 as [| n2]; try discriminate.
  unfold Date.le, Date.ge. cbn [Date.getTime]. intros Hle%Z.leb_le.
  destruct kickoff as [| k].
  - rewrite !calculateStatus_Invalid_kickoff. unfold Status_le. lia.
  - rewrite !calculateStatus_At_any. unfold Status_le.
    destruct (Z.abs (k + matchDurationMs) <=? Date.maxTime); cbn [andb];
      repeat match goal with
             | |- context [?a <? ?b] => destruct (Z.ltb_spec a b)
             end; cbn [Status_rank]; lia.
Qed.

(** ** The refresher *)

Lemma tick_matches (now : Date.t) (st : HookState) :
  matches (tick now st) = map (refresh_match now) (matches st).
Proof. reflexivity. Qed.

Lemma ingest_match_Ok (now : Date.t) (l : LeagueKey) (m : RawMatch) (x : Match) :
  ingest_match now l m = Ok x ->
  raw x = m /\ league x = l /\ parseWIBDate (date m) (time m) = Ok (kickoff x)
  /\ status x = calculateStatus now (kickoff x).
Proof.
  unfold ingest_match. destruct (parseWIBDate (date m) (time m)) as [k | e]; cbn.
  - intros [= <-]. cbn. auto.
  - discriminate.
Qed.

Lemma map_result_Ok {A B} (f : A -> result B) (l : list A) (bs : list B) :
  map_result f l = Ok bs -> Forall2 (fun a b => f a = Ok b) l bs.
Proof.
  revert bs. induction l as [| a l IH]; intros bs; cbn.
  - intros [= <-]. constructor.
  - destruct (f a) as [b | e] eqn:Hfa; cbn; [| discriminate].
    destruct (map_result f l) as [bs' | e]; cbn; [| discriminate].
    intros [= <-]. constructor; [exact Hfa | apply IH; reflexivity].
Qed.

Lemma map_result_Throw {A B} (f : A -> result B) (l : list A) (a : A) (e : Exn) :
  In a l -> f a = Throw e -> exists e', map_result f l = Throw e'.
Proof.
  induction l as [| a0 l IH]; cbn; [tauto |].
  intros [-> | Hin] Hfa.
  - rewrite Hfa. cbn. eauto.
  - destruct (f a0) as [b | e0]; cbn; [| eauto].
    destruct (IH Hin Hfa) as [e' ->]. cbn. eauto.
Qed.

Lemma map_result_all_Ok {A B} (f : A -> result B) (l : list A) :
  (forall a, In a l -> exists b, f a = Ok b) -> exists bs, map_result f l = Ok bs.
Proof.
  induction l as [| a l IH]; cbn; intros H; [eauto |].
  destruct (H a) as [b ->]; [auto |]. cbn.
  destruct IH as [bs ->]; [auto |]. cbn. eauto.
Qed.

(** Every match of a loaded collection carries the status of the instant the
    load read. *)
Lemma league_task_stamped (now : Date.t) (l : LeagueKey) (fetched : FetchOutcome)
    (ms : list Match) :
  league_task now l fetched = Ok ms ->
  Forall (fun m => status m = calculateStatus now (kickoff m)) ms.
Proof.
  unfold league_task. destruct fetched as [e | ok [e | [raws |]]]; try discriminate;
    destruct ok; cbn; try discriminate.
  intros H%map_result_Ok. induction H as [| r m raws ms Hrm _ IH]; constructor; [| exact IH].
  apply ingest_match_Ok in Hrm. tauto.
Qed.

Lemma load_result_stamped (now : Date.t) (fetched : LeagueKey -> FetchOutcome)
    (settle_order : list LeagueKey) (ms : list Match) :
  load_result now fetched settle_order = Ok ms ->
  Forall (fun m => status m = calculateStatus now (kickoff m)) ms.
Proof.
  unfold load_result, promise_all.
  set (task := fun l => league_task now l (fetched l)).
  destruct (first_rejection task settle_order); cbn [mbind result_bind]; [discriminate |].
  destruct (map_result task league_keys) as [entries | e] eqn:Hall; cbn [mbind result_bind];
    [| discriminate].
  intros [= <-]. apply map_result_Ok in Hall.
  induction Hall as [| l ms' ls entries Hl _ IH]; cbn; [constructor |].
  apply Forall_app. split; [| exact IH].
  eapply league_task_stamped. exact Hl.
Qed.

Lemma stamped_then_tick (now1 now2 : Date.t) (ms : list Match) :
  Date.le now1 now2 = true ->
  Forall (fun m => status m = calculateStatus now1 (kickoff m)) ms ->
  Forall2 (fun before after => Status_le (status before) (status after))
    ms (map (refresh_match now2) ms).
Proof.
  intros Hle Hst. induction Hst as [| m ms Hm _ IH]; cbn; constructor; [| exact IH].
  cbn. rewrite Hm. apply calculateStatus_monotone. exact Hle.
Qed.

(** C3: for a fixed kickoff the classifier is monotone in [now] for the
    order UPCOMING, LIVE, FINISHED; so a tick at an instant [now2] that
    follows a load or a tick at an earlier instant [now1] leaves the status of
    every match where it was or moves it forward. *)
Theorem status_never_regresses (now1 now2 : Date.t) :
  Date.le now1 now2 = true ->
  (forall kickoff,
      Status_le (calculateStatus now1 kickoff) (calculateStatus now2 kickoff))
  /\ (forall st,
         Forall2 (fun before after => Status_le (status before) (status after))
           (matches (tick now1 st)) (matches (tick now2 (tick now1 st))))
  /\ (forall fetched settle_order st,
         is_Ok (load_result now1 fetched settle_order) = true ->
         Forall2 (fun before after => Status_le (status before) (status after))
           (matches (load now1 fetched settle_order false st))
           (matches (tick now2 (load now1 fetched settle_order false st)))).
Proof.
  intros Hle. split; [| split].
  - intros kickoff. apply calculateStatus_monotone. exact Hle.
  - intros st. rewrite (tick_matches now2). apply (stamped_then_tick now1 now2); [exact Hle |].
    rewrite tick_matches. apply List.Forall_forall. intros m [m0 [<- _]]%in_map_iff. reflexivity.
  - intros fetched settle_order st Hok. rewrite tick_matches.
    apply (stamped_then_tick now1 now2); [exact Hle |].
    unfold load. cbn [negb]. destruct (load_result now1 fetched settle_order) as [ms | e] eqn:Hres;
      [| discriminate].
    cbn. eapply load_result_stamped. exact Hres.
Qed.

(** Two clock readings a minute apart. *)
Lemma status_never_regresses_witness :
  Date.le (Date.At 1735739100000) (Date.At 1735739160000) = true
  /\ Status_le (calculateStatus (Date.At 1735739100000) (Date.At 1735736400000))
       (calculateStatus (Date.At 1735739160000) (Date.At 1735736400000)).
Proof.
  split; [reflexivity |].
  exact (proj1 (status_never_regresses (Date.At 1735739100000) (Date.At 1735739160000)
                  eq_refl) (Date.At 1735736400000)).
Defined.

(** C6: a tick keeps the length and the order of the collection and, in
    every match, the raw fields (id, date, time, teams), the league and the
    kickoff; the new status is the classifier's at the tick's instant and the
    stored kickoff.  The tick reads nothing but the state: it takes no fetch
    outcome and does not call the parser. *)
Theorem tick_frame (now : Date.t) (st : HookState) :
  length (matches (tick now st)) = length (matches st)
  /\ loading (tick now st) = loading st
  /\ error (tick now st) = error st
  /\ forall (i : nat) (m : Match),
       matches st !! i = Some m ->
       exists m', matches (tick now st) !! i = Some m'
                  /\ raw m' = raw m
                  /\ match_id (raw m') = match_id (raw m)
                  /\ date (raw m') = date (raw m)
                  /\ time (raw m') = time (raw m)
                  /\ teams (raw m') = teams (raw m)
                  /\ league m' = league m
                  /\ kickoff m' = kickoff m
                  /\ status m' = calculateStatus now (kickoff m).
Proof.
  rewrite tick_matches. split; [apply length_map |]. split; [reflexivity |].
  split; [reflexivity |].
  intros i m Hi. exists (refresh_match now m).
  rewrite list_lookup_fmap, Hi. cbn. repeat split; reflexivity.
Qed.

(** A tick on the first day of 2026 over a collection stamped earlier: the
    match of March 2025 keeps its fields and is FINISHED. *)
Lemma tick_frame_witness :
  let st := {| matches := [Sample.london_match; Sample.march_match];
               loading := false; error := None |} in
  matches st !! 1%nat = Some Sample.march_match
  /\ exists m', matches (tick Sample.now st) !! 1%nat = Some m'
                /\ raw m' = Sample.march
                /\ kickoff m' = Date.At 1740834000000
                /\ status m' = calculateStatus Sample.now (Date.At 1740834000000).
Proof.
  intros st.
  assert (Hat : matches st !! 1%nat = Some Sample.march_match) by reflexivity.
  split; [exact Hat |].
  destruct (proj2 (proj2 (proj2 (tick_frame Sample.now st))) 1%nat Sample.march_match Hat)
    as (m' & Hm' & Hraw & _ & _ & _ & _ & _ & Hk & Hs).
  exists m'. repeat split; assumption.
Defined.

(** ** Paging *)

Lemma range_length (a b : Z) : length (JSArray.range a b) = Z.to_nat (b - a + 1).
Proof. unfold JSArray.range. rewrite length_map, length_seq. reflexivity. Qed.

Lemma range_lookup (a b : Z) (i : nat) :
  (i < Z.to_nat (b - a + 1))%nat -> JSArray.range a b !! i = Some (a + Z.of_nat i).
Proof.
  intros Hi. unfold JSArray.range. rewrite list_lookup_fmap.
  rewrite lookup_seq_lt by exact Hi. reflexivity.
Qed.

Lemma range_steps (a b : Z) (n : nat) :
  b - a + 1 = Z.of_nat n ->
  JSArray.range a b = map (fun i => a + Z.of_nat i) (seq 0 n).
Proof. intros H. unfold JSArray.range. rewrite H, Nat2Z.id. reflexivity. Qed.

Lemma Math_ceil_div_6 (a : Z) : Math_ceil_div a 6 = (a + 5) / 6.
Proof.
  unfold Math_ceil_div, Qround.Qceiling, Qround.Qfloor, QArith_base.Qopp. cbn.
  pose proof (Z.div_mod (- a) 6 ltac:(lia)) as H1.
  pose proof (Z.mod_pos_bound (- a) 6 ltac:(lia)) as H2.
  pose proof (Z.div_mod (a + 5) 6 ltac:(lia)) as H3.
  pose proof (Z.mod_pos_bound (a + 5) 6 ltac:(lia)) as H4.
  lia.
Qed.

Lemma totalPages_bounds (l : list Match) :
  6 * (totalPages l - 1) < Z.of_nat (length l) <= 6 * totalPages l.
Proof.
  unfold totalPages, MATCHES_PER_PAGE. rewrite Math_ceil_div_6.
  pose proof (Z.div_mod (Z.of_nat (length l) + 5) 6 ltac:(lia)) as H3.
  pose proof (Z.mod_pos_bound (Z.of_nat (length l) + 5) 6 ltac:(lia)) as H4.
  lia.
Qed.

(** From a start inside or beyond the array, [slice] is a [drop] and a [take]. *)
Lemma slice_window {A} (s w : Z) (l : list A) :
  0 <= s -> 0 <= w ->
  JSArray.slice s (s + w) l = take (Z.to_nat w) (drop (Z.to_nat s) l).
Proof.
  intros Hs Hw. unfold JSArray.slice.
  destruct (Z.ltb_spec s 0) as [? | _]; [lia |].
  destruct (Z.ltb_spec (s + w) 0) as [? | _]; [lia |].
  destruct (Z.le_gt_cases (Z.of_nat (length l)) s) as [Hout | Hin].
  - rewrite (drop_ge l (Z.to_nat s)) by lia.
    rewrite Z.min_r by lia. rewrite drop_ge by lia. rewrite !take_nil. reflexivity.
  - rewrite (Z.min_l s) by lia.
    destruct (Z.le_gt_cases (s + w) (Z.of_nat (length l))) as [Hfit | Hcut].
    + rewrite Z.min_l by lia. f_equal. lia.
    + rewrite Z.min_r by lia.
      rewrite !take_ge; [reflexivity | |]; rewrite length_drop; lia.
Qed.

Lemma displayMatches_window (l : list Match) (p : Z) :
  1 <= p -> displayMatches l p = take 6 (drop (Z.to_nat ((p - 1) * 6)) l).
Proof.
  intros Hp. unfold displayMatches, startIndex, MATCHES_PER_PAGE.
  rewrite slice_window by lia. reflexivity.
Qed.

(** C8: over the refined list of a league, the number of pages is the
    ceiling of a sixth of the number of matches (the least [t] with
    [count <= 6 * t]); page [p], counted from 1, holds the elements at the
    indices [(p-1)*6] to [p*6 - 1] and no more than six; every page from 1 to
    the last is non-empty; the reset that follows a change of filter puts the
    league on page 1, and page 1 is non-empty as soon as one match of the
    league passes the status filter and the search. *)
Theorem pagination_arithmetic
    (toLowerCase : string -> string)
    (leagueStatusFilters : gmap string StatusFilter)
    (leagueSearchQueries : gmap string string)
    (leaguePages : gmap string Z)
    (l : LeagueKey) (allLeagueMatches : list Match) :
  let leagueName := league_name l in
  let filteredMatches :=
    getFilteredLeagueMatches toLowerCase leagueStatusFilters leagueSearchQueries
      leagueName allLeagueMatches in
  let count := Z.of_nat (length filteredMatches) in
  totalPages filteredMatches = (count + 5) / 6
  /\ 6 * (totalPages filteredMatches - 1) < count <= 6 * totalPages filteredMatches
  /\ (forall p (i : nat), 1 <= p -> (i < 6)%nat ->
        displayMatches filteredMatches p !! i
        = filteredMatches !! (Z.to_nat ((p - 1) * 6) + i)%nat)
  /\ (forall p, 1 <= p -> (length (displayMatches filteredMatches p) <= 6)%nat)
  /\ (forall p, 1 <= p <= totalPages filteredMatches ->
        displayMatches filteredMatches p <> [])
  /\ currentPage (reset_pages leaguePages) leagueName = 1
  /\ ((exists m, In m allLeagueMatches
                 /\ passes toLowerCase
                      (default FilterALL (leagueStatusFilters !! leagueName))
                      (toLowerCase
                         (JSString.trim (default "" (leagueSearchQueries !! leagueName))))
                      m = true) ->
      displayMatches filteredMatches
        (currentPage (reset_pages leaguePages) leagueName) <> []).
Proof.
  intros leagueName fm count.
  assert (Hpage1 : currentPage (reset_pages leaguePages) leagueName = 1).
  { unfold currentPage, reset_pages. rewrite lookup_empty. reflexivity. }
  assert (Hnonempty : forall p, 1 <= p <= totalPages fm -> displayMatches fm p <> []).
  { intros p Hp. rewrite displayMatches_window by lia.
    pose proof (totalPages_bounds fm) as Hb.
    assert (Hlen : (0 < length (take 6 (drop (Z.to_nat ((p - 1) * 6)) fm)))%nat)
      by (rewrite length_take, length_drop; lia).
    intros Hnil. rewrite Hnil in Hlen. inversion Hlen. }
  split; [unfold totalPages, MATCHES_PER_PAGE; apply Math_ceil_div_6 |].
  split; [apply totalPages_bounds |].
  split.
  { intros p i Hp Hi. rewrite displayMatches_window by exact Hp.
    rewrite lookup_take_lt by exact Hi. apply lookup_drop. }
  split.
  { intros p Hp. rewrite displayMatches_window by exact Hp. rewrite length_take. lia. }
  split; [exact Hnonempty |].
  split; [exact Hpage1 |].
  intros (m & Hin & Hpass). rewrite Hpage1. apply Hnonempty.
  pose proof (totalPages_bounds fm) as Hb.
  assert (Hm : In m fm).
  { unfold fm, getFilteredLeagueMatches. apply filter_In. split; assumption. }
  destruct fm as [| x fm']; [destruct Hm |]. cbn [length] in Hb. lia.
Qed.

(** Seven matches of one league, no filter set: two pages, the second with
    the seventh match. *)
Lemma pagination_arithmetic_witness :
  let filteredMatches :=
    getFilteredLeagueMatches (fun s => s) ∅ ∅ (league_name LaLiga)
      (List.repeat Sample.march_match 7) in
  1 <= 2 <= totalPages filteredMatches
  /\ displayMatches filteredMatches 2 <> []
  /\ displayMatches filteredMatches 2 !! 0%nat = filteredMatches !! 6%nat.
Proof.
  intros filteredMatches.
  assert (Hp : 1 <= 2 <= totalPages filteredMatches) by (vm_compute; split; discriminate).
  pose proof (pagination_arithmetic (fun s => s) ∅ ∅ ∅ LaLiga
                (List.repeat Sample.march_match 7)) as H.
  cbv zeta in H. destruct H as (_ & _ & Hidx & _ & Hnonempty & _).
  split; [exact Hp |]. split; [exact (Hnonempty 2 Hp) |].
  exact (Hidx 2 0%nat ltac:(lia) ltac:(lia)).
Defined.

(** ** The page-number list *)

(** Two page lists are equal when they agree item by item, page numbers up
    to arithmetic. *)
Ltac same_pages :=
  repeat first
    [ reflexivity
    | apply (f_equal2 cons); [first [reflexivity | apply (f_equal Page); lia] |] ].

(** C9: for [totalPages >= 1] and a current page [p] in [1..totalPages], the
    list is every page from 1 to [totalPages] when [totalPages <= 7];
    otherwise pages 1 to 5, an ellipsis and the last page when [p <= 4]; the
    first page, an ellipsis and the last five pages when
    [p >= totalPages - 3]; and in between the first page, an ellipsis,
    [p-1], [p], [p+1], an ellipsis and the last page.  The component draws
    that list as soon as there are two pages. *)
Theorem getVisiblePages_policy (p total : Z) :
  1 <= total -> 1 <= p <= total ->
  (total <= 7 ->
     length (getVisiblePages p total) = Z.to_nat total
     /\ forall n, 1 <= n <= total ->
          getVisiblePages p total !! Z.to_nat (n - 1) = Some (Page n))
  /\ (7 < total -> p <= 4 ->
        getVisiblePages p total
        = [Page 1; Page 2; Page 3; Page 4; Page 5; Ellipsis; Page total])
  /\ (7 < total -> total - 3 <= p ->
        getVisiblePages p total
        = [Page 1; Ellipsis; Page (total - 4); Page (total - 3); Page (total - 2);
           Page (total - 1); Page total])
  /\ (7 < total -> 4 < p < total - 3 ->
        getVisiblePages p total
        = [Page 1; Ellipsis; Page (p - 1); Page p; Page (p + 1); Ellipsis; Page total])
  /\ (1 < total -> Pagination p total = Some (getVisiblePages p total)).
Proof.
  intros Htotal Hp.
  assert (Hdrawn : 1 < total -> Pagination p total = Some (getVisiblePages p total)).
  { intros Hmany. unfold Pagination. destruct (Z.leb_spec total 1); [lia | reflexivity]. }
  unfold getVisiblePages. repeat split; [| | | | | exact Hdrawn].
  - destruct (Z.ltb_spec 7 total); [lia |]. cbn [negb].
    rewrite length_map, range_length. f_equal. lia.
  - intros n Hn. destruct (Z.ltb_spec 7 total); [lia |]. cbn [negb].
    rewrite list_lookup_fmap, range_lookup by lia. cbn. do 2 f_equal. lia.
  - intros Hbig Hlow. destruct (Z.ltb_spec 7 total); [| lia]. cbn [negb].
    destruct (Z.leb_spec p 4); [| lia]. reflexivity.
  - intros Hbig Hhigh. destruct (Z.ltb_spec 7 total); [| lia]. cbn [negb].
    destruct (Z.leb_spec p 4); [lia |].
    destruct (Z.leb_spec (total - 3) p); [| lia].
    rewrite (range_steps (total - 4) total 5) by lia. cbn. same_pages.
  - intros Hbig Hmid. destruct (Z.ltb_spec 7 total); [| lia]. cbn [negb].
    destruct (Z.leb_spec p 4); [lia |].
    destruct (Z.leb_spec (total - 3) p); [lia |].
    rewrite (range_steps (p - 1) (p + 1) 3) by lia. cbn. same_pages.
Qed.

(** Twelve pages, the reader on page 6. *)
Lemma getVisiblePages_policy_witness :
  1 <= 12 /\ 1 <= 6 <= 12 /\ 7 < 12 /\ 4 < 6 < 12 - 3
  /\ getVisiblePages 6 12 = [Page 1; Ellipsis; Page 5; Page 6; Page 7; Ellipsis; Page 12].
Proof.
  assert (H1 : 1 <= 12) by lia.
  assert (H2 : 1 <= 6 <= 12) by lia.
  assert (H3 : 7 < 12) by lia.
  assert (H4 : 4 < 6 < 12 - 3) by lia.
  repeat (split; [assumption |]).
  exact (proj1 (proj2 (proj2 (proj2 (getVisiblePages_policy 6 12 H1 H2)))) H3 H4).
Defined.

(** ** The timestamp parser *)

Lemma split_nonempty (sep : ascii) (s : string) : JSString.split sep s <> [].
Proof.
  destruct s as [| c s]; cbn; [discriminate |].
  destruct (Ascii.eqb c sep); [discriminate |].
  destruct (JSString.split sep s); discriminate.
Qed.

(** The parser throws exactly when a piece it reads is missing, and then the
    exception is the TypeError of a method call on [undefined]; otherwise it
    returns the date of the string it assembled. *)
Lemma parseWIBDate_cases (dateStr timeStr : string) :
  if enough_pieces dateStr timeStr
  then exists k, parseWIBDate dateStr timeStr = Ok k
  else parseWIBDate dateStr timeStr = Throw undefined_toString.
Proof.
  unfold enough_pieces, parseWIBDate.
  pose proof (split_nonempty "/" dateStr) as Hd.
  pose proof (split_nonempty ":" timeStr) as Ht.
  destruct (JSString.split "/" dateStr) as [| d [| m [| y dmy]]]; [congruence | | |];
    destruct (JSString.split ":" timeStr) as [| hh [| mm hm]]; try congruence;
    cbn -[Number.of_string Number.toString Date.of_string JSString.padStart String.append];
    eauto.
Qed.

Lemma parseWIBDate_throws (dateStr timeStr : string) :
  enough_pieces dateStr timeStr = false ->
  parseWIBDate dateStr timeStr = Throw undefined_toString.
Proof. intros H. pose proof (parseWIBDate_cases dateStr timeStr) as Hc. rewrite H in Hc. exact Hc. Qed.

Lemma parseWIBDate_returns (dateStr timeStr : string) :
  enough_pieces dateStr timeStr = true ->
  exists k, parseWIBDate dateStr timeStr = Ok k.
Proof. intros H. pose proof (parseWIBDate_cases dateStr timeStr) as Hc. rewrite H in Hc. exact Hc. Qed.

Lemma parseWIBDate_is_Ok (dateStr timeStr : string) :
  is_Ok (parseWIBDate dateStr timeStr) = enough_pieces dateStr timeStr.
Proof.
  pose proof (parseWIBDate_cases dateStr timeStr) as Hc.
  destruct (enough_pieces dateStr timeStr).
  - destruct Hc as [k ->]. reflexivity.
  - rewrite Hc. reflexivity.
Qed.

(** ** Ingestion *)

Lemma map_result_Throw_inv {A B} (f : A -> result B) (l : list A) (e : Exn) :
  map_result f l = Throw e -> exists a, In a l /\ f a = Throw e.
Proof.
  induction l as [| a l IH]; cbn; [discriminate |].
  destruct (f a) as [b | e0] eqn:Hfa; cbn.
  - destruct (map_result f l) as [bs | e1]; cbn; [discriminate |].
    intros [= ->]. destruct IH as (a' & Hin & Ha'); [reflexivity |]. eauto.
  - intros [= ->]. eauto.
Qed.

Lemma ingest_match_Throw (now : Date.t) (l : LeagueKey) (m : RawMatch) (e : Exn) :
  ingest_match now l m = Throw e <-> parseWIBDate (date m) (time m) = Throw e.
Proof.
  unfold ingest_match. destruct (parseWIBDate (date m) (time m)) as [k | e']; cbn.
  - split; discriminate.
  - split; intros [= ->]; reflexivity.
Qed.

Lemma league_task_fails (now : Date.t) (l : LeagueKey) (fetched : FetchOutcome) :
  document_fails fetched <-> exists e, league_task now l fetched = Throw e.
Proof.
  unfold document_fails, league_task.
  destruct fetched as [e | ok [e | [raws |]]]; [split; eauto | | |]; destruct ok; cbn [negb];
    try (split; [eauto | auto]; fail).
  split.
  - intros [Hok | (m & Hin & Hbad)]; [discriminate |].
    destruct (parseWIBDate (date m) (time m)) as [k | e] eqn:Hp; [discriminate |].
    apply (map_result_Throw _ raws m e Hin). apply ingest_match_Throw. exact Hp.
  - intros [e (m & Hin & Hm%ingest_match_Throw)%map_result_Throw_inv].
    right. exists m. rewrite Hm. auto.
Qed.

Lemma In_league_keys (l : LeagueKey) : In l league_keys.
Proof. destruct l; cbn; auto. Qed.

Lemma load_result_Throw (now : Date.t) (fetched : LeagueKey -> FetchOutcome)
    (settle_order : list LeagueKey) (l : LeagueKey) :
  document_fails (fetched l) ->
  exists e, load_result now fetched settle_order = Throw e.
Proof.
  intros [e He]%(league_task_fails now l).
  unfold load_result, promise_all.
  set (task := fun l => league_task now l (fetched l)).
  destruct (first_rejection task settle_order) as [e1 |]; cbn [mbind result_bind]; [eauto |].
  destruct (map_result_Throw task league_keys l e (In_league_keys l) He) as [e2 ->].
  cbn [mbind result_bind]. eauto.
Qed.

(** The reason of the aggregate is the exception of one of the leagues. *)
Lemma load_result_reason (now : Date.t) (fetched : LeagueKey -> FetchOutcome)
    (settle_order : list LeagueKey) (e : Exn) :
  load_result now fetched settle_order = Throw e ->
  exists l, league_task now l (fetched l) = Throw e.
Proof.
  unfold load_result, promise_all.
  set (task := fun l => league_task now l (fetched l)).
  destruct (first_rejection task settle_order) as [e1 |] eqn:Hfirst; cbn [mbind result_bind].
  - intros [= ->]. clear -Hfirst. induction settle_order as [| l ls IH]; cbn in Hfirst; [discriminate |].
    destruct (task l) as [ms | e0] eqn:Hl; [apply IH; exact Hfirst |].
    exists l. injection Hfirst as <-. exact Hl.
  - destruct (map_result task league_keys) as [entries | e2] eqn:Hall; cbn [mbind result_bind];
      [discriminate |].
    intros [= ->]. apply map_result_Throw_inv in Hall as (l & _ & Hl). eauto.
Qed.

(** C5: when the document of any one league fails (the fetch is rejected,
    the response is not ok, the body is not JSON or has no [matches] array,
    or the parser throws on a match), the load as a whole fails, whatever the
    other three leagues returned and in whatever order the four settled; the
    state it leaves has no matches, and, unless the view was torn down
    first, it has the error message of one failed league and is no longer
    loading. *)
Theorem aggregate_load_failure (now : Date.t) (fetched : LeagueKey -> FetchOutcome)
    (settle_order : list LeagueKey) (cancelled : bool) (l : LeagueKey) :
  document_fails (fetched l) ->
  (exists e, load_result now fetched settle_order = Throw e
             /\ (exists l', league_task now l' (fetched l') = Throw e)
             /\ load now fetched settle_order false initial_state
                = {| matches := []; loading := false; error := Some (message e) |})
  /\ matches (load now fetched settle_order cancelled initial_state) = []
  /\ forall st, matches (load now fetched settle_order cancelled st) = matches st.
Proof.
  intros Hfail.
  destruct (load_result_Throw now fetched settle_order l Hfail) as [e He].
  split; [| split].
  - exists e. split; [exact He |]. split; [eapply load_result_reason; exact He |].
    unfold load. rewrite He. reflexivity.
  - unfold load. destruct cancelled; [reflexivity |]. rewrite He. reflexivity.
  - intros st. unfold load. destruct cancelled; [reflexivity |]. rewrite He. reflexivity.
Qed.

(** Serie A answers 404 while the three other leagues load. *)
Lemma aggregate_load_failure_witness :
  document_fails (Sample.one_down SerieA)
  /\ load Sample.now Sample.one_down league_keys false initial_state
     = {| matches := []; loading := false; error := Some "Gagal mengambil data Serie A" |}.
Proof.
  assert (Hfail : document_fails (Sample.one_down SerieA)) by (left; reflexivity).
  split; [exact Hfail |].
  destruct (aggregate_load_failure Sample.now Sample.one_down league_keys false SerieA Hfail)
    as [(e & He & _ & Hst) _].
  rewrite Hst. f_equal. f_equal.
  assert (Hres : load_result Sample.now Sample.one_down league_keys
                 = Throw (mkExn ErrorObj "Gagal mengambil data Serie A")) by (vm_compute; reflexivity).
  rewrite Hres in He. injection He as <-. reflexivity.
Defined.

(** ** Strings that are not dates *)

Lemma append_String (c : ascii) (a b : string) : String c a ++ b = String c (a ++ b).
Proof. reflexivity. Qed.

Lemma only_chars_app (ok : ascii -> bool) (a b : string) :
  only_chars ok (a ++ b) = only_chars ok a && only_chars ok b.
Proof.
  induction a as [| c a IH]; [reflexivity |].
  rewrite append_String. cbn [only_chars]. rewrite IH. apply andb_assoc.
Qed.

Lemma only_chars_padStart (n : nat) (s : string) :
  only_chars iso_char (JSString.padStart n "0" s) = only_chars iso_char s.
Proof.
  unfold JSString.padStart. rewrite only_chars_app.
  induction (n - String.length s)%nat as [| k IH]; cbn; [reflexivity | exact IH].
Qed.

Lemma is_digit_iso_char (c : ascii) : Number.is_digit c = true -> iso_char c = true.
Proof. intros H. unfold iso_char. rewrite H. reflexivity. Qed.

Lemma fixed_digits_chars (n : nat) (acc : Z) (s : string) (v : Z) (rest : string) :
  Date.fixed_digits n acc s = Some (v, rest) ->
  only_chars iso_char rest = true -> only_chars iso_char s = true.
Proof.
  revert acc s. induction n as [| n IH]; intros acc s; cbn.
  - intros [= _ ->]. auto.
  - destruct s as [| c s]; [discriminate |].
    destruct (Number.is_digit c) eqn:Hc; [| discriminate].
    intros Hs Hrest. cbn. rewrite (is_digit_iso_char c Hc). cbn. eapply IH; eauto.
Qed.

Lemma expect_chars (c : ascii) (s rest : string) :
  iso_char c = true -> Date.expect c s = Some rest ->
  only_chars iso_char rest = true -> only_chars iso_char s = true.
Proof.
  intros Hc. destruct s as [| c' s]; cbn; [discriminate |].
  destruct (Ascii.eqb_spec c c') as [<- | _]; [| discriminate].
  intros [= ->] Hrest. rewrite Hc, Hrest. reflexivity.
Qed.

Lemma year_field_chars (s : string) (y : Z) (rest : string) :
  Date.year_field s = Some (y, rest) ->
  only_chars iso_char rest = true -> only_chars iso_char s = true.
Proof.
  unfold Date.year_field.
  assert (Hplain : Date.fixed_digits 4 0 s = Some (y, rest) ->
                   only_chars iso_char rest = true -> only_chars iso_char s = true)
    by apply fixed_digits_chars.
  destruct s as [| c s]; [exact Hplain |].
  destruct (Ascii.eqb_spec c "+") as [-> | Hplus].
  - intros H Hrest. cbn. eapply fixed_digits_chars; eauto.
  - destruct (Ascii.eqb_spec c "-") as [-> | Hminus].
    + destruct (Date.fixed_digits 6 0 s) as [[y' rest'] |] eqn:Hd; cbn [mbind option_bind]; [| discriminate].
      destruct (y' =? 0); [discriminate |]. intros [= _ ->] Hrest.
      cbn. eapply fixed_digits_chars; eauto.
    + assert (Hsame : forall (X : Type) (a b d : X),
                 match c with
                 | "+"%char => a
                 | "-"%char => b
                 | _ => d
                 end = d).
      { intros X a b d.
        destruct c as [[] [] [] [] [] [] [] []]; try reflexivity; congruence. }
      rewrite Hsame. exact Hplain.
Qed.

Lemma offset_field_chars (s : string) (off : Z) :
  Date.offset_field s = Some off -> only_chars iso_char s = true.
Proof.
  unfold Date.offset_field. destruct s as [| sign s]; [discriminate |].
  assert (Hsigned :
    ('(h, s1) ← Date.fixed_digits 2 0 s;
     s2 ← Date.expect ":" s1;
     '(m, s3) ← Date.fixed_digits 2 0 s2;
     if negb (String.eqb s3 "") || (23 <? h) || (59 <? m) then None
     else if Ascii.eqb sign "+" then Some (h * 3600000 + m * 60000)
     else if Ascii.eqb sign "-" then Some (- (h * 3600000 + m * 60000))
     else None) = Some off -> only_chars iso_char (String sign s) = true).
  { destruct (Date.fixed_digits 2 0 s) as [[h s1] |] eqn:H1; cbn [mbind option_bind]; [| discriminate].
    destruct (Date.expect ":" s1) as [s2 |] eqn:H2; cbn [mbind option_bind]; [| discriminate].
    destruct (Date.fixed_digits 2 0 s2) as [[m s3] |] eqn:H3; cbn [mbind option_bind]; [| discriminate].
    destruct (String.eqb_spec s3 "") as [-> | _]; cbn [negb orb]; [| discriminate].
    destruct ((23 <? h) || (59 <? m)); [discriminate |].
    assert (Hs : only_chars iso_char s = true).
    { eapply fixed_digits_chars; [exact H1 |].
      eapply (expect_chars ":"); [reflexivity | exact H2 |].
      eapply fixed_digits_chars; [exact H3 | reflexivity]. }
    cbn [only_chars]. rewrite Hs, andb_true_r.
    destruct (Ascii.eqb_spec sign "+") as [-> | _]; [reflexivity |].
    destruct (Ascii.eqb_spec sign "-") as [-> | _]; [reflexivity | discriminate]. }
  destruct (Ascii.eqb_spec sign "Z") as [-> | HZ].
  - destruct s; [reflexivity | exact Hsigned].
  - intros H. apply Hsigned. revert H.
    destruct sign as [[] [] [] [] [] [] [] []]; try (intros H; exact H); congruence.
Qed.

(** A string with a time value is made of digits, signs, colons, [T], [Z]. *)
Lemma iso_time_value_chars (s : string) (tv : Z) :
  Date.iso_time_value s = Some tv -> only_chars iso_char s = true.
Proof.
  unfold Date.iso_time_value.
  destruct (Date.year_field s) as [[year s1] |] eqn:H1; cbn [mbind option_bind]; [| discriminate].
  destruct (Date.expect "-" s1) as [s2 |] eqn:H2; cbn [mbind option_bind]; [| discriminate].
  destruct (Date.fixed_digits 2 0 s2) as [[month s3] |] eqn:H3; cbn [mbind option_bind]; [| discriminate].
  destruct (Date.expect "-" s3) as [s4 |] eqn:H4; cbn [mbind option_bind]; [| discriminate].
  destruct (Date.fixed_digits 2 0 s4) as [[day s5] |] eqn:H5; cbn [mbind option_bind]; [| discriminate].
  destruct (Date.expect "T" s5) as [s6 |] eqn:H6; cbn [mbind option_bind]; [| discriminate].
  destruct (Date.fixed_digits 2 0 s6) as [[hour s7] |] eqn:H7; cbn [mbind option_bind]; [| discriminate].
  destruct (Date.expect ":" s7) as [s8 |] eqn:H8; cbn [mbind option_bind]; [| discriminate].
  destruct (Date.fixed_digits 2 0 s8) as [[minute s9] |] eqn:H9; cbn [mbind option_bind]; [| discriminate].
  destruct (Date.expect ":" s9) as [s10 |] eqn:H10; cbn [mbind option_bind]; [| discriminate].
  destruct (Date.fixed_digits 2 0 s10) as [[second s11] |] eqn:H11; cbn [mbind option_bind]; [| discriminate].
  destruct (Date.offset_field s11) as [offset |] eqn:H12; cbn [mbind option_bind]; [| discriminate].
  intros _.
  eapply year_field_chars; [exact H1 |].
  eapply (expect_chars "-"); [reflexivity | exact H2 |].
  eapply fixed_digits_chars; [exact H3 |].
  eapply (expect_chars "-"); [reflexivity | exact H4 |].
  eapply fixed_digits_chars; [exact H5 |].
  eapply (expect_chars "T"); [reflexivity | exact H6 |].
  eapply fixed_digits_chars; [exact H7 |].
  eapply (expect_chars ":"); [reflexivity | exact H8 |].
  eapply fixed_digits_chars; [exact H9 |].
  eapply (expect_chars ":"); [reflexivity | exact H10 |].
  eapply fixed_digits_chars; [exact H11 |].
  eapply offset_field_chars. exact H12.
Qed.

Lemma of_string_other_chars (s : string) :
  only_chars iso_char s = false -> Date.of_string s = Date.Invalid.
Proof.
  intros H. unfold Date.of_string.
  destruct (Date.iso_time_value s) as [tv |] eqn:Htv; [| reflexivity].
  apply iso_time_value_chars in Htv. congruence.
Qed.

(** The string the parser hands to [new Date], from the five numbers. *)
Lemma parseWIBDate_pieces (dateStr timeStr : string) (d m y hh mm : string)
    (dmy hm : list string) :
  JSString.split "/" dateStr = d :: m :: y :: dmy ->
  JSString.split ":" timeStr = hh :: mm :: hm ->
  parseWIBDate dateStr timeStr =
    Ok (Date.of_string
          (JSString.padStart 4 "0" (Number.toString (Number.of_string y)) ++ "-"
           ++ JSString.padStart 2 "0" (Number.toString (Number.of_string m)) ++ "-"
           ++ JSString.padStart 2 "0" (Number.toString (Number.of_string d)) ++ "T"
           ++ JSString.padStart 2 "0" (Number.toString (Number.of_string hh)) ++ ":"
           ++ JSString.padStart 2 "0" (Number.toString (Number.of_string mm)) ++ ":00+07:00")).
Proof. intros Hd Ht. unfold parseWIBDate. rewrite Hd, Ht. reflexivity. Qed.

(** A piece that is not a number makes the date invalid. *)
Lemma parseWIBDate_NaN (dateStr timeStr : string) (k : Date.t) :
  parseWIBDate dateStr timeStr = Ok k ->
  Exists (fun piece => Number.of_string piece = Number.NaN)
    (take 3 (JSString.split "/" dateStr) ++ take 2 (JSString.split ":" timeStr)) ->
  k = Date.Invalid.
Proof.
  intros Hk Hnan.
  pose proof (parseWIBDate_is_Ok dateStr timeStr) as Hok. rewrite Hk in Hok.
  unfold enough_pieces in Hok. symmetry in Hok. apply andb_prop in Hok as [Hd Ht].
  destruct (JSString.split "/" dateStr) as [| d [| m [| y dmy]]] eqn:Ed; try discriminate.
  destruct (JSString.split ":" timeStr) as [| hh [| mm hm]] eqn:Et; try discriminate.
  rewrite (parseWIBDate_pieces _ _ _ _ _ _ _ _ _ Ed Et) in Hk. injection Hk as <-.
  apply of_string_other_chars.
  rewrite !only_chars_app, !only_chars_padStart.
  cbn [firstn] in Hnan. rewrite !firstn_O in Hnan. cbn [app] in Hnan.
  repeat match goal with
         | H : Exists _ (_ :: _) |- _ => apply Exists_cons in H as [H | H]
         | H : Exists _ [] |- _ => apply Exists_nil in H; destruct H
         end;
    rewrite Hnan; cbn [Number.toString]; change (only_chars iso_char "NaN") with false;
    rewrite ?andb_false_r, ?andb_false_l; reflexivity.
Qed.

(** ** The kickoffs the parser returns *)

(** [toString] of a number never starts with a plus sign, so the string the
    parser assembles never has the sign of an expanded year, and its year
    has four digits. *)
Lemma digits_fuel_head (fuel : nat) (n : Z) (acc : string) :
  exists d rest,
    Number.digits_fuel fuel n acc = String (Number.digit_char (d mod 10)) rest.
Proof.
  revert n acc. induction fuel as [| fuel IH]; intros n acc; cbn [Number.digits_fuel].
  - eauto.
  - destruct (n <? 10); [eauto | apply IH].
Qed.

Lemma digit_char_not_plus (d : Z) : Number.digit_char (d mod 10) <> "+"%char.
Proof.
  pose proof (Z.mod_pos_bound d 10 ltac:(lia)) as Hd.
  unfold Number.digit_char.
  assert (Hk : (Z.to_nat (d mod 10) < 10)%nat) by lia.
  revert Hk. generalize (Z.to_nat (d mod 10)) as k. intros k Hk.
  do 10 (destruct k as [| k]; [intros H; vm_compute in H; discriminate H |]). lia.
Qed.

Lemma digits_head (n : Z) :
  exists c rest, Number.digits n = String c rest /\ c <> "+"%char.
Proof.
  unfold Number.digits.
  destruct (digits_fuel_head (Z.to_nat (Z.log2 n)) n EmptyString) as (d & rest & ->).
  exists (Number.digit_char (d mod 10)), rest.
  split; [reflexivity | apply digit_char_not_plus].
Qed.

Ltac head_done :=
  rewrite ?append_String; eexists _, _; split; [reflexivity | first [assumption | discriminate]].

Lemma toString_positive_head (m e : Z) :
  exists c rest, Number.toString_positive m e = String c rest /\ c <> "+"%char.
Proof.
  unfold Number.toString_positive.
  destruct (Number.shortest m e) as [[s n] k].
  destruct (digits_head s) as (c & rest & -> & Hc).
  destruct ((k <=? n) && (n <=? 21)); [head_done |].
  assert (Hrest :
    exists c' rest',
      (if (-6 <? n) && (n <=? 0) then "0." ++ Number.zeros (- n) ++ String c rest
       else if k =? 1 then String c rest ++ Number.exponent_suffix n
       else Number.take_chars 1 (String c rest) ++ "."
            ++ JSString.drop_chars 1 (String c rest) ++ Number.exponent_suffix n)
      = String c' rest' /\ c' <> "+"%char).
  { destruct ((-6 <? n) && (n <=? 0)); [head_done |].
    destruct (k =? 1); [head_done |].
    unfold Number.take_chars. change (Z.to_nat 1) with 1%nat. cbn [String.substring].
    head_done. }
  destruct (Z.ltb_spec 0 n) as [Hn | Hn]; cbn [andb]; [| exact Hrest].
  destruct (n <=? 21); [| exact Hrest].
  unfold Number.take_chars. destruct (Z.to_nat n) as [| n'] eqn:Hn'; [lia |].
  cbn [String.substring]. head_done.
Qed.

Lemma toString_head (x : Number.t) :
  exists c rest, Number.toString x = String c rest /\ c <> "+"%char.
Proof.
  destruct x as [| [] | [] m e]; cbn [Number.toString]; try head_done.
  - destruct (m =? 0); head_done.
  - destruct (m =? 0); [head_done |].
    change ("" ++ Number.toString_positive m e) with (Number.toString_positive m e).
    apply toString_positive_head.
Qed.

Lemma padStart_head (len : nat) (s : string) :
  (exists c rest, s = String c rest /\ c <> "+"%char) ->
  exists c rest, JSString.padStart len "0" s = String c rest /\ c <> "+"%char.
Proof.
  intros (c & rest & -> & Hc). unfold JSString.padStart.
  destruct (len - String.length (String c rest))%nat as [| n]; cbn [JSString.repeat_char].
  - change ("" ++ String c rest) with (String c rest). eauto.
  - head_done.
Qed.

(** The value of a run of digits. *)
Lemma is_digit_value (c : ascii) :
  Number.is_digit c = true -> 0 <= Z.of_nat (nat_of_ascii c) - 48 <= 9.
Proof.
  unfold Number.is_digit. intros [H1 H2]%andb_prop.
  apply Nat.leb_le in H1, H2. lia.
Qed.

Lemma fixed_digits_bounds (n : nat) (acc : Z) (s : string) (v : Z) (rest : string) :
  Date.fixed_digits n acc s = Some (v, rest) ->
  acc * 10 ^ Z.of_nat n <= v <= acc * 10 ^ Z.of_nat n + 10 ^ Z.of_nat n - 1.
Proof.
  revert acc s. induction n as [| n IH]; intros acc s; cbn [Date.fixed_digits].
  - intros [= -> ->]. change (10 ^ Z.of_nat 0) with 1. lia.
  - destruct s as [| c s]; [discriminate |].
    destruct (Number.is_digit c) eqn:Hc; [| discriminate].
    intros H. apply IH in H. apply is_digit_value in Hc.
    rewrite Nat2Z.inj_succ, Z.pow_succ_r by lia.
    assert (Hpos : 0 < 10 ^ Z.of_nat n) by (apply Z.pow_pos_nonneg; lia).
    nia.
Qed.

Lemma fixed_digits_2 (s : string) (v : Z) (rest : string) :
  Date.fixed_digits 2 0 s = Some (v, rest) -> 0 <= v <= 99.
Proof. intros H%fixed_digits_bounds. change (10 ^ Z.of_nat 2) with 100 in H. lia. Qed.

Lemma fixed_digits_4 (s : string) (v : Z) (rest : string) :
  Date.fixed_digits 4 0 s = Some (v, rest) -> 0 <= v <= 9999.
Proof. intros H%fixed_digits_bounds. change (10 ^ Z.of_nat 4) with 10000 in H. lia. Qed.

Lemma fixed_digits_6 (s : string) (v : Z) (rest : string) :
  Date.fixed_digits 6 0 s = Some (v, rest) -> 0 <= v <= 999999.
Proof. intros H%fixed_digits_bounds. change (10 ^ Z.of_nat 6) with 1000000 in H. lia. Qed.

(** Without the plus sign a year is at most 9999. *)
Lemma year_field_upper (s : string) (y : Z) (rest : string) :
  (forall s', s <> String "+" s') ->
  Date.year_field s = Some (y, rest) -> y <= 9999.
Proof.
  intros Hplus. unfold Date.year_field.
  assert (Hplain : Date.fixed_digits 4 0 s = Some (y, rest) -> y <= 9999).
  { intros H%fixed_digits_4. lia. }
  destruct s as [| c s]; [exact Hplain |].
  destruct (Ascii.eqb_spec c "+") as [-> | Hc]; [destruct (Hplus s); reflexivity |].
  destruct (Ascii.eqb_spec c "-") as [-> | Hminus].
  - destruct (Date.fixed_digits 6 0 s) as [[y' rest'] |] eqn:Hd; cbn [mbind option_bind];
      [| discriminate].
    apply fixed_digits_6 in Hd. destruct (y' =? 0); [discriminate |]. intros [= <- _]. lia.
  - assert (Hsame : forall (X : Type) (a b d : X),
               match c with
               | "+"%char => a
               | "-"%char => b
               | _ => d
               end = d).
    { intros X a b d.
      destruct c as [[] [] [] [] [] [] [] []]; try reflexivity; congruence. }
    rewrite Hsame. exact Hplain.
Qed.

Lemma offset_field_bounds (s : string) (off : Z) :
  Date.offset_field s = Some off -> - 86400000 < off < 86400000.
Proof.
  unfold Date.offset_field. destruct s as [| sign s]; [discriminate |].
  assert (Hsigned :
    ('(h, s1) ← Date.fixed_digits 2 0 s;
     s2 ← Date.expect ":" s1;
     '(m, s3) ← Date.fixed_digits 2 0 s2;
     if negb (String.eqb s3 "") || (23 <? h) || (59 <? m) then None
     else if Ascii.eqb sign "+" then Some (h * 3600000 + m * 60000)
     else if Ascii.eqb sign "-" then Some (- (h * 3600000 + m * 60000))
     else None) = Some off -> - 86400000 < off < 86400000).
  { destruct (Date.fixed_digits 2 0 s) as [[h s1] |] eqn:H1; cbn [mbind option_bind]; [| discriminate].
    destruct (Date.expect ":" s1) as [s2 |] eqn:H2; cbn [mbind option_bind]; [| discriminate].
    destruct (Date.fixed_digits 2 0 s2) as [[m s3] |] eqn:H3; cbn [mbind option_bind]; [| discriminate].
    apply fixed_digits_2 in H1, H3.
    destruct (negb (String.eqb s3 "")); cbn [orb]; [discriminate |].
    destruct (Z.ltb_spec 23 h); cbn [orb]; [discriminate |].
    destruct (Z.ltb_spec 59 m); [discriminate |].
    destruct (Ascii.eqb sign "+"); [intros [= <-]; lia |].
    destruct (Ascii.eqb sign "-"); [intros [= <-]; lia | discriminate]. }
  destruct (Ascii.eqb_spec sign "Z") as [-> | HZ].
  - destruct s; [intros [= <-]; lia | exact Hsigned].
  - intros H. apply Hsigned. revert H.
    destruct sign as [[] [] [] [] [] [] [] []]; try (intros H; exact H); congruence.
Qed.

Lemma DayFromYear_upper (y : Z) : y <= 9999 -> Date.DayFromYear y <= 2932532.
Proof.
  intros Hy. unfold Date.DayFromYear.
  pose proof (Z.div_mod (y - 1969) 4 ltac:(lia)).
  pose proof (Z.mod_pos_bound (y - 1969) 4 ltac:(lia)).
  pose proof (Z.div_mod (y - 1901) 100 ltac:(lia)).
  pose proof (Z.mod_pos_bound (y - 1901) 100 ltac:(lia)).
  pose proof (Z.div_mod (y - 1601) 400 ltac:(lia)).
  pose proof (Z.mod_pos_bound (y - 1601) 400 ltac:(lia)).
  lia.
Qed.

Lemma DayWithinYear_upper (leap : bool) (mn : Z) : Date.DayWithinYear leap mn <= 335.
Proof.
  unfold Date.DayWithinYear.
  assert (Hnth : nth (Z.to_nat mn) [0; 31; 59; 90; 120; 151; 181; 212; 243; 273; 304; 334] 0
                 <= 334).
  { generalize (Z.to_nat mn) as k. intros k.
    do 12 (destruct k as [| k]; [cbn; lia |]). destruct k; cbn; lia. }
  destruct (leap && (2 <=? mn)); lia.
Qed.

(** A date-time string without the sign of an expanded year is a moment of
    the years up to 9999: its live window ends long before the last date. *)
Lemma iso_time_value_upper (s : string) (tv : Z) :
  (forall s', s <> String "+" s') ->
  Date.iso_time_value s = Some tv -> tv + matchDurationMs <= Date.maxTime.
Proof.
  intros Hplus. unfold Date.iso_time_value.
  destruct (Date.year_field s) as [[year s1] |] eqn:H1; cbn [mbind option_bind]; [| discriminate].
  destruct (Date.expect "-" s1) as [s2 |] eqn:H2; cbn [mbind option_bind]; [| discriminate].
  destruct (Date.fixed_digits 2 0 s2) as [[month s3] |] eqn:H3; cbn [mbind option_bind]; [| discriminate].
  destruct (Date.expect "-" s3) as [s4 |] eqn:H4; cbn [mbind option_bind]; [| discriminate].
  destruct (Date.fixed_digits 2 0 s4) as [[day s5] |] eqn:H5; cbn [mbind option_bind]; [| discriminate].
  destruct (Date.expect "T" s5) as [s6 |] eqn:H6; cbn [mbind option_bind]; [| discriminate].
  destruct (Date.fixed_digits 2 0 s6) as [[hour s7] |] eqn:H7; cbn [mbind option_bind]; [| discriminate].
  destruct (Date.expect ":" s7) as [s8 |] eqn:H8; cbn [mbind option_bind]; [| discriminate].
  destruct (Date.fixed_digits 2 0 s8) as [[minute s9] |] eqn:H9; cbn [mbind option_bind]; [| discriminate].
  destruct (Date.expect ":" s9) as [s10 |] eqn:H10; cbn [mbind option_bind]; [| discriminate].
  destruct (Date.fixed_digits 2 0 s10) as [[second s11] |] eqn:H11; cbn [mbind option_bind]; [| discriminate].
  destruct (Date.offset_field s11) as [offset |] eqn:H12; cbn [mbind option_bind]; [| discriminate].
  apply (year_field_upper s year s1 Hplus) in H1.
  apply fixed_digits_2 in H3, H5, H7, H9, H11. apply offset_field_bounds in H12.
  destruct (Z.leb_spec 1 month); cbn [andb]; [| discriminate].
  destruct (Z.leb_spec month 12); cbn [andb]; [| discriminate].
  destruct (Z.leb_spec 1 day); cbn [andb]; [| discriminate].
  destruct (Z.leb_spec day 31); cbn [andb]; [| discriminate].
  destruct (Z.leb_spec hour 24); cbn [andb]; [| discriminate].
  destruct (Z.leb_spec minute 59); cbn [andb]; [| discriminate].
  destruct (Z.leb_spec second 59); cbn [andb]; [| discriminate].
  destruct ((hour <? 24) || ((minute =? 0) && (second =? 0))); [| discriminate].
  intros [= <-].
  unfold Date.MakeDate, Date.MakeDay, Date.MakeTime, Date.msPerDay.
  rewrite (Z.div_small (month - 1) 12), (Z.mod_small (month - 1) 12), Z.add_0_r by lia.
  pose proof (DayFromYear_upper year H1) as Hyear.
  pose proof (DayWithinYear_upper (Date.InLeapYear year) (month - 1)) as Hmonth.
  assert (Hd : matchDurationMs = 6600000) by reflexivity.
  assert (Hmax : Date.maxTime = 8640000000000000) by reflexivity.
  lia.
Qed.

(** Every kickoff that the parser returns as a date has its live window
    inside the range of dates. *)
Lemma parseWIBDate_range (dateStr timeStr : string) (kickoff : Z) :
  parseWIBDate dateStr timeStr = Ok (Date.At kickoff) ->
  - Date.maxTime <= kickoff + matchDurationMs <= Date.maxTime.
Proof.
  intros Hk.
  pose proof (parseWIBDate_is_Ok dateStr timeStr) as Hok. rewrite Hk in Hok.
  unfold enough_pieces in Hok. symmetry in Hok. apply andb_prop in Hok as [Hd Ht].
  destruct (JSString.split "/" dateStr) as [| d [| m [| y dmy]]] eqn:Ed; try discriminate.
  destruct (JSString.split ":" timeStr) as [| hh [| mm hm]] eqn:Et; try discriminate.
  rewrite (parseWIBDate_pieces _ _ _ _ _ _ _ _ _ Ed Et) in Hk. injection Hk as Hk.
  destruct (padStart_head 4 _ (toString_head (Number.of_string y))) as (c & rest & Hpad & Hc).
  rewrite Hpad, append_String in Hk.
  unfold Date.of_string in Hk.
  destruct (Date.iso_time_value (String c _)) as [tv |] eqn:Htv; [| discriminate].
  apply iso_time_value_upper in Htv; [| intros s' [= -> _]; congruence].
  unfold Date.TimeClip in Hk. destruct (Z.leb_spec (Z.abs tv) Date.maxTime); [| discriminate].
  injection Hk as <-.
  assert (Hdur : matchDurationMs = 6600000) by reflexivity.
  lia.
Qed.

(** At the edge of the range of dates, where no parsed kickoff lies, the
    live window is empty: the last instant is a kickoff that is FINISHED
    from the start. *)
Lemma calculateStatus_end_of_range :
  calculateStatus (Date.At Date.maxTime) (Date.At Date.maxTime) = FINISHED.
Proof. vm_compute. reflexivity. Qed.

(** C1: for every instant [now] and every kickoff, the classifier returns
    UPCOMING exactly when [now < kickoff], returns LIVE only when
    [kickoff <= now < kickoff + 110 min], and returns FINISHED whenever
    [now >= kickoff + 110 min]; and for every kickoff that the parser
    returns, which are the kickoffs the classifier is called with, it
    returns LIVE exactly when [kickoff <= now < kickoff + 110 min] and
    FINISHED exactly when [now >= kickoff + 110 min], so that at the kickoff
    itself the match is LIVE and at [kickoff + 110 min] it is FINISHED. *)
Theorem calculateStatus_spec (now kickoff : Z) :
  (calculateStatus (Date.At now) (Date.At kickoff) = UPCOMING <-> now < kickoff)
  /\ (calculateStatus (Date.At now) (Date.At kickoff) = LIVE ->
      kickoff <= now < kickoff + matchDurationMs)
  /\ (kickoff + matchDurationMs <= now ->
      calculateStatus (Date.At now) (Date.At kickoff) = FINISHED)
  /\ ((exists dateStr timeStr, parseWIBDate dateStr timeStr = Ok (Date.At kickoff)) ->
      (calculateStatus (Date.At now) (Date.At kickoff) = LIVE
       <-> kickoff <= now < kickoff + matchDurationMs)
      /\ (calculateStatus (Date.At now) (Date.At kickoff) = FINISHED
          <-> kickoff + matchDurationMs <= now)
      /\ calculateStatus (Date.At kickoff) (Date.At kickoff) = LIVE
      /\ calculateStatus (Date.At (kickoff + matchDurationMs)) (Date.At kickoff) = FINISHED).
Proof.
  assert (Hd : matchDurationMs = 6600000) by reflexivity.
  split; [| split; [| split]].
  - rewrite calculateStatus_At_any.
    destruct (Z.ltb_spec now kickoff); [tauto |].
    destruct ((Z.abs (kickoff + matchDurationMs) <=? Date.maxTime)
              && (now <? kickoff + matchDurationMs));
      split; intros; first [discriminate | lia].
  - rewrite calculateStatus_At_any.
    destruct (Z.ltb_spec now kickoff); [discriminate |].
    destruct (Z.abs (kickoff + matchDurationMs) <=? Date.maxTime); cbn [andb];
      [| discriminate].
    destruct (Z.ltb_spec now (kickoff + matchDurationMs)); [lia | discriminate].
  - intros Hlate. rewrite calculateStatus_At_any.
    destruct (Z.ltb_spec now kickoff); [lia |].
    destruct (Z.ltb_spec now (kickoff + matchDurationMs)); [lia |].
    rewrite andb_false_r. reflexivity.
  - intros (dateStr & timeStr & Hparsed).
    pose proof (parseWIBDate_range dateStr timeStr kickoff Hparsed) as Hrange.
    rewrite !calculateStatus_At by exact Hrange.
    repeat split; intros;
      repeat match goal with
             | |- context [?a <? ?b] => destruct (Z.ltb_spec a b)
             | H : context [?a <? ?b] |- _ => destruct (Z.ltb_spec a b)
             end;
      first [discriminate | reflexivity | lia].
Qed.

(** The kickoff of 1 January 2025, 20:00 WIB, as the parser returns it, and
    a clock 45 minutes later. *)
Lemma calculateStatus_spec_witness :
  parseWIBDate "01/01/2025" "20:00" = Ok (Date.At 1735736400000)
  /\ calculateStatus (Date.At 1735739100000) (Date.At 1735736400000) = LIVE
  /\ calculateStatus (Date.At 1735736400000) (Date.At 1735736400000) = LIVE
  /\ calculateStatus (Date.At (1735736400000 + matchDurationMs)) (Date.At 1735736400000)
     = FINISHED.
Proof.
  assert (Hparsed : parseWIBDate "01/01/2025" "20:00" = Ok (Date.At 1735736400000))
    by (vm_compute; reflexivity).
  split; [exact Hparsed |].
  pose proof (proj2 (proj2 (proj2 (calculateStatus_spec 1735739100000 1735736400000)))
                (ex_intro _ "01/01/2025" (ex_intro _ "20:00" Hparsed))) as H.
  split; [apply (proj1 H); vm_compute; split; congruence |].
  exact (proj2 (proj2 H)).
Defined.

Lemma Forall2_In_left {A B} (P : A -> B -> Prop) (l1 : list A) (l2 : list B) (a : A) :
  Forall2 P l1 l2 -> In a l1 -> exists b, In b l2 /\ P a b.
Proof.
  induction 1 as [| x y l1 l2 Hxy _ IH]; cbn; [tauto |].
  intros [-> | Hin]; [eauto |]. destruct (IH Hin) as (b & Hb & Hab). eauto.
Qed.

(** A loaded collection holds every match of every document, with the
    kickoff the parser returned for it. *)
Lemma load_result_member (now : Date.t) (fetched : LeagueKey -> FetchOutcome)
    (settle_order : list LeagueKey) (all : list Match)
    (l : LeagueKey) (raws : list RawMatch) (m : RawMatch) (k : Date.t) :
  load_result now fetched settle_order = Ok all ->
  fetched l = Response true (JsonDoc (Some raws)) ->
  In m raws ->
  parseWIBDate (date m) (time m) = Ok k ->
  In {| raw := m; league := l; kickoff := k; status := calculateStatus now k |} all.
Proof.
  unfold load_result, promise_all.
  set (task := fun l => league_task now l (fetched l)).
  destruct (first_rejection task settle_order); cbn [mbind result_bind]; [discriminate |].
  destruct (map_result task league_keys) as [entries | e] eqn:Hall; cbn [mbind result_bind];
    [| discriminate].
  intros [= <-] Hdoc Hin Hk. apply map_result_Ok in Hall.
  destruct (Forall2_In_left _ _ _ l Hall (In_league_keys l)) as (ms & Hms & Htask).
  apply in_concat. exists ms. split; [exact Hms |].
  unfold task, league_task in Htask. rewrite Hdoc in Htask. cbn [negb] in Htask.
  apply map_result_Ok in Htask.
  destruct (Forall2_In_left _ _ _ m Htask Hin) as (x & Hx & Hmx).
  unfold ingest_match in Hmx. rewrite Hk in Hmx. cbn [mbind result_bind] in Hmx.
  injection Hmx as <-. exact Hx.
Qed.

Lemma load_commits (now : Date.t) (fetched : LeagueKey -> FetchOutcome)
    (settle_order : list LeagueKey) (all : list Match) :
  load_result now fetched settle_order = Ok all ->
  load now fetched settle_order false initial_state
  = {| matches := all; loading := false; error := None |}.
Proof. intros H. unfold load. rewrite H. reflexivity. Qed.

(** C2, as the specification words it, fails on the code: a date made of
    letters has the three pieces the parser reads, so the parser returns (the
    Invalid Date), the load succeeds without an error and the record is in
    the collection; a date and a time without their zero padding are read as
    if they were padded. *)
Lemma malformed_record_is_ingested :
  parseWIBDate "aa/bb/cccc" "10:00" = Ok Date.Invalid
  /\ error (load Sample.now Sample.with_letters league_keys false initial_state) = None
  /\ In {| raw := Sample.letters; league := LaLiga;
           kickoff := Date.Invalid; status := FINISHED |}
        (matches (load Sample.now Sample.with_letters league_keys false initial_state))
  /\ parseWIBDate "7/3/2025" "9:5" = parseWIBDate "07/03/2025" "09:05"
  /\ parseWIBDate "7/3/2025" "9:5" = Ok (Date.At 1741313100000).
Proof.
  split; [vm_compute; reflexivity |].
  split; [vm_compute; reflexivity |].
  split; [vm_compute; auto |].
  split; vm_compute; reflexivity.
Qed.

(** C2 (amended): the parser does not check the shape of the two strings.
    It fails exactly when the date has fewer than three pieces between
    slashes or the time fewer than two between colons, with the TypeError of
    a method call on [undefined]; a record of that kind in any document makes
    the whole load fail, with an error message and no matches.  On every
    other pair of strings, of the expected shape or not, the parser returns
    a date and the record enters the collection of a load that succeeds. *)
Theorem parseWIBDate_no_shape_check (dateStr timeStr : string) :
  (enough_pieces dateStr timeStr = false ->
     parseWIBDate dateStr timeStr = Throw undefined_toString
     /\ forall now fetched settle_order l raws m,
          fetched l = Response true (JsonDoc (Some raws)) ->
          In m raws -> date m = dateStr -> time m = timeStr ->
          exists e, load_result now fetched settle_order = Throw e
                    /\ load now fetched settle_order false initial_state
                       = {| matches := []; loading := false; error := Some (message e) |})
  /\ (enough_pieces dateStr timeStr = true ->
        exists k, parseWIBDate dateStr timeStr = Ok k
                  /\ forall now fetched settle_order l raws m all,
                       fetched l = Response true (JsonDoc (Some raws)) ->
                       In m raws -> date m = dateStr -> time m = timeStr ->
                       load_result now fetched settle_order = Ok all ->
                       In {| raw := m; league := l; kickoff := k;
                             status := calculateStatus now k |}
                          (matches (load now fetched settle_order false initial_state))).
Proof.
  split.
  - intros Hfew. split; [apply parseWIBDate_throws; exact Hfew |].
    intros now fetched settle_order l raws m Hdoc Hin <- <-.
    assert (Hfail : document_fails (fetched l)).
    { rewrite Hdoc. right. exists m. split; [exact Hin |].
      rewrite parseWIBDate_is_Ok. exact Hfew. }
    destruct (load_result_Throw now fetched settle_order l Hfail) as [e He].
    exists e. split; [exact He |]. unfold load. rewrite He. reflexivity.
  - intros Henough. destruct (parseWIBDate_returns _ _ Henough) as [k Hk].
    exists k. split; [exact Hk |].
    intros now fetched settle_order l raws m all Hdoc Hin <- <- Hall.
    rewrite (load_commits _ _ _ _ Hall). cbn [matches].
    eapply load_result_member; eauto.
Qed.

(** A date written with dashes has one piece; a date made of letters has
    three. *)
Lemma parseWIBDate_no_shape_check_witness :
  enough_pieces "2025-01-01" "10:00" = false
  /\ parseWIBDate "2025-01-01" "10:00" = Throw undefined_toString
  /\ enough_pieces "aa/bb/cccc" "10:00" = true
  /\ exists k, parseWIBDate "aa/bb/cccc" "10:00" = Ok k.
Proof.
  assert (H1 : enough_pieces "2025-01-01" "10:00" = false) by reflexivity.
  assert (H2 : enough_pieces "aa/bb/cccc" "10:00" = true) by reflexivity.
  split; [exact H1 |].
  split; [exact (proj1 (proj1 (parseWIBDate_no_shape_check _ _) H1)) |].
  split; [exact H2 |].
  destruct (proj2 (parseWIBDate_no_shape_check _ _) H2) as (k & Hk & _).
  exists k. exact Hk.
Defined.

(** C10, as it is worded, fails on the code: the parser does throw, on a
    date that has fewer than three pieces between slashes (here a date
    written with dashes, and the empty strings), and a document with such a
    record is not loaded at all. *)
Lemma parseWIBDate_can_throw :
  parseWIBDate "2025-01-01" "10:00" = Throw undefined_toString
  /\ parseWIBDate "" "" = Throw undefined_toString
  /\ load Sample.now Sample.with_dashes league_keys false initial_state
     = {| matches := []; loading := false;
          error := Some "Cannot read properties of undefined (reading 'toString')" |}.
Proof. repeat split; vm_compute; reflexivity. Qed.

(** C10 (amended): the classifier is total, and for an Invalid Date kickoff
    every comparison is false and it returns FINISHED at every instant.  The
    parser returns a Date whenever the date has its three pieces and the time
    its two (it throws a TypeError otherwise); the date is the Invalid Date as
    soon as one of those pieces is not a number.  A record whose kickoff is
    the Invalid Date is not rejected: it enters the collection classified as
    FINISHED. *)
Theorem malformed_record_is_FINISHED (dateStr timeStr : string) :
  (forall now, calculateStatus now Date.Invalid = FINISHED)
  /\ (enough_pieces dateStr timeStr = true ->
        exists k, parseWIBDate dateStr timeStr = Ok k
                  /\ (Exists (fun piece => Number.of_string piece = Number.NaN)
                        (take 3 (JSString.split "/" dateStr)
                         ++ take 2 (JSString.split ":" timeStr)) ->
                      k = Date.Invalid))
  /\ (parseWIBDate dateStr timeStr = Ok Date.Invalid ->
        forall now l m,
          date m = dateStr -> time m = timeStr ->
          ingest_match now l m
          = Ok {| raw := m; league := l; kickoff := Date.Invalid; status := FINISHED |}
          /\ forall fetched settle_order raws all,
               fetched l = Response true (JsonDoc (Some raws)) ->
               In m raws ->
               load_result now fetched settle_order = Ok all ->
               In {| raw := m; league := l; kickoff := Date.Invalid; status := FINISHED |}
                  (matches (load now fetched settle_order false initial_state))).
Proof.
  split; [apply calculateStatus_Invalid_kickoff |]. split.
  - intros Henough. destruct (parseWIBDate_returns _ _ Henough) as [k Hk].
    exists k. split; [exact Hk |]. apply parseWIBDate_NaN. exact Hk.
  - intros Hinv now l m <- <-. split.
    + unfold ingest_match. rewrite Hinv. cbn [mbind result_bind].
      rewrite calculateStatus_Invalid_kickoff. reflexivity.
    + intros fetched settle_order raws all Hdoc Hin Hall.
      rewrite (load_commits _ _ _ _ Hall). cbn [matches].
      rewrite <- (calculateStatus_Invalid_kickoff now).
      eapply load_result_member; eauto.
Qed.

(** The record with letters in its date. *)
Lemma malformed_record_is_FINISHED_witness :
  enough_pieces "aa/bb/cccc" "10:00" = true
  /\ parseWIBDate "aa/bb/cccc" "10:00" = Ok Date.Invalid
  /\ ingest_match Sample.now LaLiga Sample.letters
     = Ok {| raw := Sample.letters; league := LaLiga;
             kickoff := Date.Invalid; status := FINISHED |}.
Proof.
  assert (H1 : enough_pieces "aa/bb/cccc" "10:00" = true) by reflexivity.
  assert (H2 : parseWIBDate "aa/bb/cccc" "10:00" = Ok Date.Invalid).
  { destruct (proj1 (proj2 (malformed_record_is_FINISHED "aa/bb/cccc" "10:00")) H1)
      as (k & Hk & Hnan).
    rewrite Hk. f_equal. apply Hnan. apply Exists_cons_hd. vm_compute. reflexivity. }
  split; [exact H1 |]. split; [exact H2 |].
  exact (proj1 (proj2 (proj2 (malformed_record_is_FINISHED "aa/bb/cccc" "10:00")) H2
                  Sample.now LaLiga Sample.letters eq_refl eq_refl)).
Defined.

(** ** Sorting *)

Section InsertionSort.
Context {A : Type}.
Variable comparefn : A -> A -> option Z.

Lemma insert_Permutation (x : A) (l : list A) :
  Permutation (JSArray.insert comparefn x l) (x :: l).
Proof.
  induction l as [| y l IH]; cbn; [reflexivity |].
  destruct (JSArray.SortCompare comparefn x y <=? 0); [reflexivity |].
  rewrite IH. apply perm_swap.
Qed.

Lemma sort_cons (x : A) (l : list A) :
  JSArray.stable_sort comparefn (x :: l)
  = JSArray.insert comparefn x (JSArray.stable_sort comparefn l).
Proof. reflexivity. Qed.

Lemma sort_Permutation (l : list A) : Permutation (JSArray.stable_sort comparefn l) l.
Proof.
  induction l as [| x l IH]; [reflexivity |].
  rewrite sort_cons, insert_Permutation, IH. reflexivity.
Qed.

(** Stability, for a class of elements that the comparator never asks to
    swap: the sort leaves them in the order of the input. *)
Lemma insert_filter (keep : A -> bool) (x : A) (l : list A) :
  (forall a b, keep a = true -> keep b = true ->
               JSArray.SortCompare comparefn a b <= 0) ->
  List.filter keep (JSArray.insert comparefn x l) = List.filter keep (x :: l).
Proof.
  intros Hkeep. induction l as [| y l IH]; cbn; [reflexivity |].
  destruct (Z.leb_spec (JSArray.SortCompare comparefn x y) 0) as [Hle | Hgt];
    [reflexivity |].
  cbn. cbn in IH. rewrite IH.
  destruct (keep x) eqn:Hx, (keep y) eqn:Hy; try reflexivity.
  specialize (Hkeep x y Hx Hy). lia.
Qed.

Lemma sort_filter (keep : A -> bool) (l : list A) :
  (forall a b, keep a = true -> keep b = true ->
               JSArray.SortCompare comparefn a b <= 0) ->
  List.filter keep (JSArray.stable_sort comparefn l) = List.filter keep l.
Proof.
  intros Hkeep. induction l as [| x l IH]; [reflexivity |].
  rewrite sort_cons, (insert_filter keep x _ Hkeep). cbn [List.filter].
  rewrite IH. reflexivity.
Qed.

(** Sortedness, on elements that the comparator orders as a total
    preorder. *)
Variable good : A -> Prop.
Hypothesis ordered_total :
  forall a b, good a -> good b ->
              JSArray.ordered comparefn a b \/ JSArray.ordered comparefn b a.
Hypothesis ordered_trans :
  forall a b c, good a -> good b -> good c ->
                JSArray.ordered comparefn a b -> JSArray.ordered comparefn b c ->
                JSArray.ordered comparefn a c.

Lemma insert_StronglySorted (x : A) (l : list A) :
  good x -> List.Forall good l ->
  StronglySorted (JSArray.ordered comparefn) l ->
  StronglySorted (JSArray.ordered comparefn) (JSArray.insert comparefn x l).
Proof.
  intros Hx Hl Hs. induction Hs as [| y l Hs IH Hy]; cbn.
  - constructor; constructor.
  - apply List.Forall_cons_iff in Hl as [Hgy Hgl]. specialize (IH Hgl).
    destruct (Z.leb_spec (JSArray.SortCompare comparefn x y) 0) as [Hle | Hgt].
    + constructor; [constructor; assumption |].
      constructor; [exact Hle |].
      rewrite List.Forall_forall in Hy, Hgl |- *. intros z Hz.
      apply (ordered_trans x y z); auto.
    + constructor; [exact IH |].
      rewrite List.Forall_forall in Hy |- *. intros z Hz.
      apply (Permutation_in _ (insert_Permutation x l)) in Hz as [<- | Hz]; [| auto].
      destruct (ordered_total x y Hx Hgy) as [Hxy | Hyx];
        [unfold JSArray.ordered in Hxy; lia | exact Hyx].
Qed.

Lemma sort_StronglySorted (l : list A) :
  List.Forall good l -> StronglySorted (JSArray.ordered comparefn) (JSArray.stable_sort comparefn l).
Proof.
  induction l as [| x l IH]; intros Hl; [constructor |].
  apply List.Forall_cons_iff in Hl as [Hx Hl]. rewrite sort_cons.
  apply insert_StronglySorted; [exact Hx | | apply IH; exact Hl].
  rewrite List.Forall_forall in Hl |- *. intros z Hz. apply Hl.
  apply (Permutation_in _ (sort_Permutation l)). exact Hz.
Qed.

Lemma tied_iff (a b : A) :
  JSArray.tied comparefn a b = true
  <-> JSArray.ordered comparefn a b /\ JSArray.ordered comparefn b a.
Proof.
  unfold JSArray.tied, JSArray.ordered. rewrite andb_true_iff, !Z.leb_le. reflexivity.
Qed.

Lemma sort_tied (z : A) (l : list A) :
  good z -> List.Forall good l ->
  List.filter (JSArray.tied comparefn z) (JSArray.stable_sort comparefn l)
  = List.filter (JSArray.tied comparefn z) l.
Proof.
  intros Hz Hl. assert (Hl' := Hl). rewrite List.Forall_forall in Hl'.
  assert (Hgen : forall l0, (forall a, In a l0 -> In a l) ->
            List.filter (JSArray.tied comparefn z) (JSArray.stable_sort comparefn l0)
            = List.filter (JSArray.tied comparefn z) l0).
  { induction l0 as [| x l0 IH]; intros Hsub; [reflexivity |].
    rewrite sort_cons. cbn [List.filter]. rewrite <- IH by (intros a Ha; apply Hsub; right; exact Ha).
    assert (Hx : good x) by (apply Hl', Hsub; left; reflexivity).
    assert (Hsorted : forall a, In a (JSArray.stable_sort comparefn l0) -> good a).
    { intros a Ha. apply Hl', Hsub. right.
      apply (Permutation_in _ (sort_Permutation l0)). exact Ha. }
    revert Hsorted. generalize (JSArray.stable_sort comparefn l0) as s.
    induction s as [| y s IHs]; intros Hs; cbn; [reflexivity |].
    destruct (Z.leb_spec (JSArray.SortCompare comparefn x y) 0) as [Hle | Hgt];
      [reflexivity |].
    cbn [List.filter]. rewrite IHs by (intros a Ha; apply Hs; right; exact Ha).
    destruct (JSArray.tied comparefn z x) eqn:Hzx, (JSArray.tied comparefn z y) eqn:Hzy;
      try reflexivity.
    apply tied_iff in Hzx as [Hzx Hxz]. apply tied_iff in Hzy as [Hzy Hyz].
    assert (Hy : good y) by (apply Hs; left; reflexivity).
    pose proof (ordered_trans x z y Hx Hz Hy Hxz Hzy) as Hxy.
    unfold JSArray.ordered in Hxy. lia. }
  apply Hgen. auto.
Qed.

(** On such elements the standard leaves the engine no choice: a
    rearrangement of the input that is sorted and keeps every class of tied
    elements in its input order is the list that [stable_sort] computes. *)
Lemma stable_sorted_unique (l1 l2 : list A) :
  List.Forall good l1 ->
  Permutation l1 l2 ->
  StronglySorted (JSArray.ordered comparefn) l1 ->
  StronglySorted (JSArray.ordered comparefn) l2 ->
  (forall z, good z ->
             List.filter (JSArray.tied comparefn z) l1
             = List.filter (JSArray.tied comparefn z) l2) ->
  l1 = l2.
Proof.
  revert l2. induction l1 as [| x l1 IH]; intros l2 Hgood Hperm Hs1 Hs2 Hstable.
  - apply Permutation_nil in Hperm. congruence.
  - destruct l2 as [| y l2]; [apply Permutation_sym, Permutation_nil in Hperm; discriminate |].
    apply List.Forall_cons_iff in Hgood as [Hx Hgood].
    assert (Hy : good y).
    { pose proof (Permutation_in y (Permutation_sym Hperm) (in_eq y l2)) as [<- | Hin];
        [exact Hx |].
      rewrite List.Forall_forall in Hgood. auto. }
    assert (Hxx : JSArray.ordered comparefn x x) by (destruct (ordered_total x x Hx Hx); assumption).
    assert (Hyy : JSArray.ordered comparefn y y) by (destruct (ordered_total y y Hy Hy); assumption).
    apply StronglySorted_inv in Hs1 as [Hs1 Hx_le]. apply StronglySorted_inv in Hs2 as [Hs2 Hy_le].
    rewrite List.Forall_forall in Hx_le, Hy_le.
    assert (Hxy : JSArray.ordered comparefn x y).
    { pose proof (Permutation_in y (Permutation_sym Hperm) (in_eq y l2)) as [<- | Hin]; auto. }
    assert (Hyx : JSArray.ordered comparefn y x).
    { pose proof (Permutation_in x Hperm (in_eq x l1)) as [<- | Hin]; auto. }
    assert (Heq : x = y).
    { specialize (Hstable x Hx). cbn [List.filter] in Hstable.
      rewrite (proj2 (tied_iff x x) (conj Hxx Hxx)) in Hstable.
      rewrite (proj2 (tied_iff x y) (conj Hxy Hyx)) in Hstable.
      congruence. }
    subst y. f_equal. apply IH; try assumption.
    + eapply Permutation_cons_inv. exact Hperm.
    + intros z Hz. specialize (Hstable z Hz). cbn [List.filter] in Hstable.
      destruct (JSArray.tied comparefn z x); congruence.
Qed.
End InsertionSort.

Lemma StronglySorted_apart {A} (R : A -> A -> Prop) (l1 l2 l3 : list A) (a b : A) :
  StronglySorted R (l1 ++ a :: l2 ++ b :: l3) -> R a b.
Proof.
  induction l1 as [| x l1 IH]; cbn; intros Hs.
  - apply StronglySorted_inv in Hs as [_ Hall]. rewrite List.Forall_forall in Hall.
    apply Hall. apply in_or_app. right. left. reflexivity.
  - apply StronglySorted_inv in Hs as [Hs _]. apply IH. exact Hs.
Qed.

(** What the comparator says on two matches with valid kickoffs. *)
Lemma SortCompare_valid (a b : Match) (x y : Z) :
  kickoff a = Date.At x -> kickoff b = Date.At y ->
  JSArray.SortCompare finished_last a b =
    if is_finished a && negb (is_finished b) then 1
    else if is_finished b && negb (is_finished a) then -1
    else x - y.
Proof.
  intros Ha Hb. unfold JSArray.SortCompare, finished_last. rewrite Ha, Hb.
  destruct (is_finished a), (is_finished b); reflexivity.
Qed.

Lemma valid_kickoff_At (m : Match) : valid_kickoff m -> exists x, kickoff m = Date.At x.
Proof. unfold valid_kickoff. destruct (kickoff m) as [| x]; [congruence | eauto]. Qed.

Lemma before_valid (a b : Match) :
  valid_kickoff a -> valid_kickoff b ->
  before a b <->
  (is_finished a = true -> is_finished b = true)
  /\ (is_finished a = is_finished b -> Date.le (kickoff a) (kickoff b) = true).
Proof.
  intros [x Ha]%valid_kickoff_At [y Hb]%valid_kickoff_At.
  unfold before, JSArray.ordered. rewrite (SortCompare_valid a b x y Ha Hb), Ha, Hb.
  unfold Date.le, Date.ge. cbn [Date.getTime].
  destruct (is_finished a), (is_finished b); cbn [andb negb];
    rewrite ?Z.leb_le; intuition (try congruence; try lia).
Qed.

Lemma before_total (a b : Match) :
  valid_kickoff a -> valid_kickoff b -> before a b \/ before b a.
Proof.
  intros [x Ha]%valid_kickoff_At [y Hb]%valid_kickoff_At.
  unfold before, JSArray.ordered.
  rewrite (SortCompare_valid a b x y Ha Hb), (SortCompare_valid b a y x Hb Ha).
  destruct (is_finished a), (is_finished b); cbn [andb negb]; lia.
Qed.

Lemma before_trans (a b c : Match) :
  valid_kickoff a -> valid_kickoff b -> valid_kickoff c ->
  before a b -> before b c -> before a c.
Proof.
  intros [x Ha]%valid_kickoff_At [y Hb]%valid_kickoff_At [z Hc]%valid_kickoff_At.
  unfold before, JSArray.ordered.
  rewrite (SortCompare_valid a b x y Ha Hb), (SortCompare_valid b c y z Hb Hc),
    (SortCompare_valid a c x z Ha Hc).
  destruct (is_finished a), (is_finished b), (is_finished c); cbn [andb negb]; lia.
Qed.

(** Matches of the same rank are never asked to swap, valid or not. *)
Lemma same_rank_before (z a b : Match) :
  same_rank z a = true -> same_rank z b = true ->
  JSArray.SortCompare finished_last a b <= 0.
Proof.
  unfold same_rank, JSArray.SortCompare, finished_last.
  intros [Hfa Hka]%andb_prop [Hfb Hkb]%andb_prop.
  apply Bool.eqb_prop in Hfa, Hfb. rewrite <- Hfa, <- Hfb.
  destruct (is_finished z); cbn [andb negb];
    destruct (kickoff z), (kickoff a), (kickoff b); try discriminate; cbn; try lia.
Qed.

(** The order the comparator gives to a sorted list of valid matches. *)
Lemma sort_finished_last_order (l : list Match) :
  List.Forall valid_kickoff l ->
  forall (l1 : list Match) (a : Match) (l2 : list Match) (b : Match) (l3 : list Match),
    JSArray.stable_sort finished_last l = (l1 ++ a :: l2 ++ b :: l3)%list ->
    (is_finished a = true -> is_finished b = true)
    /\ (is_finished a = is_finished b -> Date.le (kickoff a) (kickoff b) = true).
Proof.
  intros Hvalid l1 a l2 b l3 Hsplit.
  pose proof (sort_StronglySorted finished_last valid_kickoff before_total before_trans l Hvalid)
    as Hsorted.
  rewrite Hsplit in Hsorted.
  assert (Hin : forall m, In m (l1 ++ a :: l2 ++ b :: l3) -> valid_kickoff m).
  { intros m Hm. rewrite <- Hsplit in Hm.
    apply (Permutation_in _ (sort_Permutation finished_last l)) in Hm.
    rewrite List.Forall_forall in Hvalid. auto. }
  apply before_valid.
  - apply Hin. apply in_or_app. right. left. reflexivity.
  - apply Hin. apply in_or_app. right. right. apply in_or_app. right. left. reflexivity.
  - exact (StronglySorted_apart _ _ _ _ _ _ Hsorted).
Qed.

(** On valid kickoffs the rank of the comparator is the pair of the finished
    flag and the kickoff. *)
Lemma same_rank_tied (z a : Match) :
  valid_kickoff z -> valid_kickoff a ->
  same_rank z a = JSArray.tied finished_last z a.
Proof.
  intros [x Hz]%valid_kickoff_At [y Ha]%valid_kickoff_At.
  unfold same_rank, JSArray.tied.
  rewrite (SortCompare_valid z a x y Hz Ha), (SortCompare_valid a z y x Ha Hz), Hz, Ha.
  destruct (is_finished z), (is_finished a); cbn [andb negb Bool.eqb];
    try reflexivity;
    destruct (Z.eqb_spec x y), (Z.leb_spec (x - y) 0), (Z.leb_spec (y - x) 0);
    try reflexivity; lia.
Qed.

(** With valid kickoffs every stable sort gives the list of [JSArray.stable_sort]. *)
Lemma sort_finished_last_unique (l out : list Match) :
  List.Forall valid_kickoff l ->
  Permutation out l ->
  StronglySorted before out ->
  (forall z, List.filter (same_rank z) out = List.filter (same_rank z) l) ->
  out = JSArray.stable_sort finished_last l.
Proof.
  intros Hvalid Hperm Hsorted Hstable.
  assert (Hout : List.Forall valid_kickoff out).
  { rewrite List.Forall_forall in Hvalid |- *. intros m Hm.
    apply Hvalid. apply (Permutation_in _ Hperm). exact Hm. }
  apply (stable_sorted_unique finished_last valid_kickoff before_total); try assumption.
  - rewrite Hperm. symmetry. apply sort_Permutation.
  - apply (sort_StronglySorted finished_last valid_kickoff before_total before_trans).
    exact Hvalid.
  - intros z Hz.
    rewrite (sort_tied finished_last valid_kickoff before_trans z l Hz Hvalid).
    rewrite <- (filter_ext_in (same_rank z) (JSArray.tied finished_last z) out).
    + rewrite <- (filter_ext_in (same_rank z) (JSArray.tied finished_last z) l).
      * apply Hstable.
      * intros a Ha. apply same_rank_tied; [exact Hz |].
        rewrite List.Forall_forall in Hvalid. auto.
    + intros a Ha. apply same_rank_tied; [exact Hz |].
      rewrite List.Forall_forall in Hout. auto.
Qed.

(** Two different elements of a list come in one order or the other. *)
Lemma one_before_the_other {A} (a b : A) (l : list A) :
  In a l -> In b l -> a <> b ->
  (exists l1 l2 l3, l = (l1 ++ a :: l2 ++ b :: l3)%list)
  \/ (exists l1 l2 l3, l = (l1 ++ b :: l2 ++ a :: l3)%list).
Proof.
  intros Ha Hb Hab. induction l as [| x l IH]; [destruct Ha |].
  destruct Ha as [-> | Ha], Hb as [-> | Hb].
  - congruence.
  - left. apply in_split in Hb as (l2 & l3 & ->). exists [], l2, l3. reflexivity.
  - right. apply in_split in Ha as (l2 & l3 & ->). exists [], l2, l3. reflexivity.
  - destruct (IH Ha Hb) as [(l1 & l2 & l3 & ->) | (l1 & l2 & l3 & ->)].
    + left. exists (x :: l1), l2, l3. reflexivity.
    + right. exists (x :: l1), l2, l3. reflexivity.
Qed.

(** ** The sorted views *)

Lemma slice_0_4 {A} (l : list A) : JSArray.slice 0 4 l = take 4 l.
Proof. change 4 with (0 + 4) at 1. rewrite slice_window by lia. reflexivity. Qed.

Lemma finished_last_valid (a b : Match) (x y : Z) :
  kickoff a = Date.At x -> kickoff b = Date.At y ->
  finished_last a b =
    Some (if is_finished a && negb (is_finished b) then 1
          else if is_finished b && negb (is_finished a) then -1
          else x - y).
Proof.
  intros Ha Hb. unfold finished_last. rewrite Ha, Hb.
  destruct (is_finished a), (is_finished b); reflexivity.
Qed.

(** The comparator of the views is consistent on a list exactly when every
    kickoff in the list is a date: for a match with the Invalid Date it
    returns NaN, also against the match itself. *)
Lemma finished_last_consistent (l : list Match) :
  JSArray.consistent finished_last l = true <-> List.Forall valid_kickoff l.
Proof.
  unfold JSArray.consistent. rewrite List.forallb_forall, List.Forall_forall. split.
  - intros H a Ha. specialize (H a Ha).
    rewrite List.forallb_forall in H. specialize (H a Ha).
    rewrite List.forallb_forall in H. specialize (H a Ha).
    intros Hk. unfold JSArray.consistent_at, finished_last in H. rewrite Hk in H.
    destruct (is_finished a); cbn in H; discriminate.
  - intros H a Ha. apply List.forallb_forall. intros b Hb.
    apply List.forallb_forall. intros c Hc.
    destruct (valid_kickoff_At a (H a Ha)) as [x Hx].
    destruct (valid_kickoff_At b (H b Hb)) as [y Hy].
    destruct (valid_kickoff_At c (H c Hc)) as [z Hz].
    unfold JSArray.consistent_at.
    rewrite (finished_last_valid a a x x Hx Hx), (finished_last_valid a b x y Hx Hy),
      (finished_last_valid b a y x Hy Hx), (finished_last_valid b c y z Hy Hz),
      (finished_last_valid a c x z Hx Hz).
    destruct (is_finished a), (is_finished b), (is_finished c); cbn [andb negb];
      repeat rewrite ?andb_true_iff, ?Bool.implb_true_iff, ?Z.eqb_eq, ?Z.ltb_lt; lia.
Qed.

(** With valid kickoffs the sort of the views is the stable sort, on every
    engine; with an Invalid Date in the list it is what the engine makes of
    the list. *)
Lemma sort_valid_kickoffs (engine : list Match -> list Match) (l : list Match) :
  List.Forall valid_kickoff l ->
  JSArray.sort finished_last engine l = JSArray.stable_sort finished_last l.
Proof.
  intros H%finished_last_consistent. unfold JSArray.sort. rewrite H. reflexivity.
Qed.

Lemma sort_invalid_kickoff (engine : list Match -> list Match) (l : list Match) :
  ~ List.Forall valid_kickoff l -> JSArray.sort finished_last engine l = engine l.
Proof.
  intros H. unfold JSArray.sort.
  destruct (JSArray.consistent finished_last l) eqn:Hc; [| reflexivity].
  apply finished_last_consistent in Hc. contradiction.
Qed.

(** C4, as the specification words it, fails on a collection that holds an
    Invalid Date kickoff (the load of [Sample.with_letters]).  The comparator
    returns NaN against that match, so it is not a consistent comparator and
    the order of the list is the engine's.  On an engine that leaves this
    list as it is, the finished match of March stays in front of the finished
    match of January.  And whatever order an engine gives to the list, two
    finished matches come with a kickoff that is not at or after the one
    before: no comparison with the Invalid Date holds. *)
Lemma filtered_with_invalid_kickoff :
  matches (load Sample.now Sample.with_letters league_keys false initial_state)
  = [Sample.london_match; Sample.march_match; Sample.letters_match; Sample.january_match]
  /\ (forall engine,
        filtered engine
          [Sample.london_match; Sample.march_match; Sample.letters_match;
           Sample.january_match]
          Sample.all_leagues
        = engine [Sample.london_match; Sample.march_match; Sample.letters_match;
                  Sample.january_match])
  /\ filtered (fun l => l)
       [Sample.london_match; Sample.march_match; Sample.letters_match; Sample.january_match]
       Sample.all_leagues
     = [Sample.london_match; Sample.march_match; Sample.letters_match; Sample.january_match]
  /\ is_finished Sample.march_match = true
  /\ is_finished Sample.january_match = true
  /\ Date.le (kickoff Sample.march_match) (kickoff Sample.january_match) = false
  /\ Date.lt (kickoff Sample.january_match) (kickoff Sample.march_match) = true
  /\ forall engine,
       Permutation
         (engine [Sample.london_match; Sample.march_match; Sample.letters_match;
                  Sample.january_match])
         [Sample.london_match; Sample.march_match; Sample.letters_match;
          Sample.january_match] ->
       exists (l1 : list Match) (a : Match) (l2 : list Match) (b : Match) (l3 : list Match),
         filtered engine
           [Sample.london_match; Sample.march_match; Sample.letters_match;
            Sample.january_match]
           Sample.all_leagues
         = (l1 ++ a :: l2 ++ b :: l3)%list
         /\ is_finished a = is_finished b
         /\ Date.le (kickoff a) (kickoff b) = false.
Proof.
  assert (Hengine : forall engine,
    filtered engine
      [Sample.london_match; Sample.march_match; Sample.letters_match; Sample.january_match]
      Sample.all_leagues
    = engine [Sample.london_match; Sample.march_match; Sample.letters_match;
              Sample.january_match])
    by (intros engine; vm_compute; reflexivity).
  split; [vm_compute; reflexivity |]. split; [exact Hengine |].
  do 5 (split; [vm_compute; reflexivity |]).
  intros engine Hperm. rewrite Hengine.
  assert (Hmarch : In Sample.march_match
            (engine [Sample.london_match; Sample.march_match; Sample.letters_match;
                     Sample.january_match])).
  { apply (Permutation_in _ (Permutation_sym Hperm)). cbn. auto. }
  assert (Hletters : In Sample.letters_match
            (engine [Sample.london_match; Sample.march_match; Sample.letters_match;
                     Sample.january_match])).
  { apply (Permutation_in _ (Permutation_sym Hperm)). cbn. auto. }
  destruct (one_before_the_other Sample.march_match Sample.letters_match _ Hmarch Hletters)
    as [(l1 & l2 & l3 & ->) | (l1 & l2 & l3 & ->)]; [discriminate | |].
  - exists l1, Sample.march_match, l2, Sample.letters_match, l3. repeat split; reflexivity.
  - exists l1, Sample.letters_match, l2, Sample.march_match, l3. repeat split; reflexivity.
Qed.

(** C4 (amended): for every match collection in which the matches that pass
    the league filter have valid kickoffs, and on every engine, the
    league-filtered sorted list is a rearrangement of those matches that has
    every FINISHED match after every non-FINISHED match and, within each of
    the two groups, the matches in non-decreasing order of kickoff; the sort
    is stable: matches of the same rank keep their input order; and the list
    is the only stable sorted arrangement of those matches. *)
Theorem filtered_finished_last (engine : list Match -> list Match)
    (matches : list Match) (selectedLeagues : gset string) :
  let kept :=
    List.filter
      (fun m => if has selectedLeagues "ALL" then true
                else has selectedLeagues (league_name (league m)))
      matches in
  let out := filtered engine matches selectedLeagues in
  List.Forall valid_kickoff kept ->
  Permutation out kept
  /\ (forall (l1 : list Match) (a : Match) (l2 : list Match) (b : Match) (l3 : list Match),
        out = (l1 ++ a :: l2 ++ b :: l3)%list ->
        (is_finished a = true -> is_finished b = true)
        /\ (is_finished a = is_finished b -> Date.le (kickoff a) (kickoff b) = true))
  /\ (forall z, List.filter (same_rank z) out = List.filter (same_rank z) kept)
  /\ (forall other,
        Permutation other kept ->
        StronglySorted before other ->
        (forall z, List.filter (same_rank z) other = List.filter (same_rank z) kept) ->
        other = out).
Proof.
  intros kept out Hvalid.
  assert (Hout : out = JSArray.stable_sort finished_last kept)
    by (apply sort_valid_kickoffs; exact Hvalid).
  rewrite Hout. split; [apply sort_Permutation |]. split; [| split].
  - apply sort_finished_last_order. exact Hvalid.
  - intros z. apply sort_filter. apply same_rank_before.
  - intros other Hperm Hsorted Hstable.
    apply sort_finished_last_unique; assumption.
Qed.

(** La Liga alone, from a load in which every kickoff is a date, on an
    engine that would reverse the list had it the choice: the match to come
    first, then the two finished ones by kickoff. *)
Lemma filtered_finished_last_witness :
  List.Forall valid_kickoff
    [Sample.march_match; Sample.january_match; Sample.next_march_match]
  /\ filtered (@rev Match)
       [Sample.march_match; Sample.january_match; Sample.next_march_match]
       Sample.all_leagues
     = [Sample.next_march_match; Sample.january_match; Sample.march_match]
  /\ Date.le (kickoff Sample.january_match) (kickoff Sample.march_match) = true.
Proof.
  assert (Hvalid : List.Forall valid_kickoff
            [Sample.march_match; Sample.january_match; Sample.next_march_match])
    by (repeat constructor; discriminate).
  assert (Hout : filtered (@rev Match)
                   [Sample.march_match; Sample.january_match; Sample.next_march_match]
                   Sample.all_leagues
                 = [Sample.next_march_match; Sample.january_match; Sample.march_match])
    by (vm_compute; reflexivity).
  split; [exact Hvalid |]. split; [exact Hout |].
  refine (proj2 (proj1 (proj2 (filtered_finished_last (@rev Match)
            [Sample.march_match; Sample.january_match; Sample.next_march_match]
            Sample.all_leagues Hvalid))
            [Sample.next_march_match] Sample.january_match [] Sample.march_match [] Hout)
          eq_refl).
Defined.

(** C7, as the specification words it, fails in two places.  On a collection
    with an Invalid Date kickoff the comparator is not consistent and the
    order of the spotlight is the engine's: on an engine that leaves the
    three matches of Real Madrid as they are, the finished match of March is
    in front of the finished match of January, and on every engine two
    finished matches come with a kickoff that is not at or after the one
    before.  And the empty team name selects nothing, even when a team of
    that name plays. *)
Lemma teamMatches_out_of_order :
  (forall engine,
     teamMatches engine
       [Sample.london_match; Sample.march_match; Sample.letters_match; Sample.january_match]
       "Real Madrid"
     = JSArray.slice 0 4
         (engine [Sample.march_match; Sample.letters_match; Sample.january_match]))
  /\ teamMatches (fun l => l)
       [Sample.london_match; Sample.march_match; Sample.letters_match; Sample.january_match]
       "Real Madrid"
     = [Sample.march_match; Sample.letters_match; Sample.january_match]
  /\ is_finished Sample.march_match = true
  /\ is_finished Sample.january_match = true
  /\ Date.le (kickoff Sample.march_match) (kickoff Sample.january_match) = false
  /\ (forall engine,
        Permutation
          (engine [Sample.march_match; Sample.letters_match; Sample.january_match])
          [Sample.march_match; Sample.letters_match; Sample.january_match] ->
        exists (l1 : list Match) (a : Match) (l2 : list Match) (b : Match) (l3 : list Match),
          teamMatches engine
            [Sample.london_match; Sample.march_match; Sample.letters_match;
             Sample.january_match]
            "Real Madrid"
          = (l1 ++ a :: l2 ++ b :: l3)%list
          /\ is_finished a = is_finished b
          /\ Date.le (kickoff a) (kickoff b) = false)
  /\ plays "" Sample.nameless_match = true
  /\ (forall engine, teamMatches engine [Sample.nameless_match] "" = []).
Proof.
  assert (Hengine : forall engine,
    teamMatches engine
      [Sample.london_match; Sample.march_match; Sample.letters_match; Sample.january_match]
      "Real Madrid"
    = JSArray.slice 0 4
        (engine [Sample.march_match; Sample.letters_match; Sample.january_match]))
    by (intros engine; vm_compute; reflexivity).
  split; [exact Hengine |].
  do 4 (split; [vm_compute; reflexivity |]).
  split; [| split; [vm_compute; reflexivity | intros engine; reflexivity]].
  intros engine Hperm. rewrite Hengine, slice_0_4.
  rewrite take_ge by (rewrite (Permutation_length Hperm); cbn; lia).
  assert (Hmarch : In Sample.march_match
            (engine [Sample.march_match; Sample.letters_match; Sample.january_match])).
  { apply (Permutation_in _ (Permutation_sym Hperm)). cbn. auto. }
  assert (Hletters : In Sample.letters_match
            (engine [Sample.march_match; Sample.letters_match; Sample.january_match])).
  { apply (Permutation_in _ (Permutation_sym Hperm)). cbn. auto. }
  destruct (one_before_the_other Sample.march_match Sample.letters_match _ Hmarch Hletters)
    as [(l1 & l2 & l3 & ->) | (l1 & l2 & l3 & ->)]; [discriminate | |].
  - exists l1, Sample.march_match, l2, Sample.letters_match, l3. repeat split; reflexivity.
  - exists l1, Sample.letters_match, l2, Sample.march_match, l3. repeat split; reflexivity.
Qed.

(** C7 (amended): for every non-empty team name, when the matches in which
    that team is the home or the away team have valid kickoffs, the
    spotlight is the first four elements of their stable sorted list, on
    every engine, and it is ordered by the finished-last rule: FINISHED after
    non-FINISHED, and non-decreasing kickoff within each group.  With valid
    kickoffs, or on an engine whose sort rearranges its input whatever the
    comparator, the spotlight holds only matches of the collection in which
    the team plays, and its length is the smaller of 4 and their number. *)
Theorem teamMatches_spotlight (engine : list Match -> list Match)
    (matches : list Match) (selectedTeam : string) :
  selectedTeam <> "" ->
  let qualifying := List.filter (plays selectedTeam) matches in
  let out := teamMatches engine matches selectedTeam in
  (List.Forall valid_kickoff qualifying ->
   out = take 4 (JSArray.stable_sort finished_last qualifying)
   /\ forall (l1 : list Match) (a : Match) (l2 : list Match) (b : Match) (l3 : list Match),
        out = (l1 ++ a :: l2 ++ b :: l3)%list ->
        (is_finished a = true -> is_finished b = true)
        /\ (is_finished a = is_finished b -> Date.le (kickoff a) (kickoff b) = true))
  /\ (List.Forall valid_kickoff qualifying \/ (forall l, Permutation (engine l) l) ->
      length out = Nat.min 4 (length qualifying)
      /\ forall m, In m out ->
           In m matches
           /\ (name (home (teams (raw m))) = selectedTeam
               \/ name (away (teams (raw m))) = selectedTeam)).
Proof.
  intros Hteam qualifying out.
  assert (Hout : out = take 4 (JSArray.sort finished_last engine qualifying)).
  { unfold out, teamMatches. destruct (String.eqb_spec selectedTeam ""); [contradiction |].
    apply slice_0_4. }
  split.
  - intros Hvalid. rewrite (sort_valid_kickoffs engine qualifying Hvalid) in Hout.
    split; [exact Hout |].
    intros l1 a l2 b l3 Hlist.
    apply (sort_finished_last_order qualifying Hvalid l1 a l2 b
             (l3 ++ drop 4 (JSArray.stable_sort finished_last qualifying))).
    rewrite <- (take_drop 4 (JSArray.stable_sort finished_last qualifying)) at 1.
    rewrite <- Hout, Hlist. rewrite <- !app_assoc. cbn [app].
    rewrite <- !app_assoc. reflexivity.
  - intros Hcase.
    assert (Hperm : Permutation (JSArray.sort finished_last engine qualifying) qualifying).
    { destruct Hcase as [Hvalid | Hengine].
      - rewrite (sort_valid_kickoffs engine qualifying Hvalid). apply sort_Permutation.
      - unfold JSArray.sort. destruct (JSArray.consistent finished_last qualifying);
          [apply sort_Permutation | apply Hengine]. }
    split.
    + rewrite Hout, length_take, (Permutation_length Hperm). reflexivity.
    + intros m Hm.
      assert (Hq : In m qualifying).
      { apply (Permutation_in _ Hperm).
        rewrite <- (take_drop 4 (JSArray.sort finished_last engine qualifying)).
        apply in_or_app. left. rewrite <- Hout. exact Hm. }
      apply filter_In in Hq as [Hin Hplays]. split; [exact Hin |].
      unfold plays in Hplays. apply orb_prop in Hplays as [H | H];
        apply String.eqb_eq in H; auto.
Qed.

(** Real Madrid in a collection whose kickoffs are all dates and in which it
    plays six times: the three matches to come, then the earliest of the
    three finished ones. *)
Lemma teamMatches_spotlight_witness :
  "Real Madrid" <> ""
  /\ List.filter (plays "Real Madrid") Sample.season
     = [Sample.march_match; Sample.january_match; Sample.next_march_match;
        Sample.april_match; Sample.next_april_match; Sample.next_may_match]
  /\ teamMatches (fun l => l) Sample.season "Real Madrid"
     = [Sample.next_march_match; Sample.next_april_match; Sample.next_may_match;
        Sample.january_match]
  /\ (is_finished Sample.next_may_match = true -> is_finished Sample.january_match = true)
  /\ Date.le (kickoff Sample.next_april_match) (kickoff Sample.next_may_match) = true
  /\ length (teamMatches (fun l => l) Sample.season "Real Madrid") = Nat.min 4 6.
Proof.
  assert (Hteam : "Real Madrid" <> "") by discriminate.
  assert (Hqualifying :
            List.filter (plays "Real Madrid") Sample.season
            = [Sample.march_match; Sample.january_match; Sample.next_march_match;
               Sample.april_match; Sample.next_april_match; Sample.next_may_match])
    by (vm_compute; reflexivity).
  assert (Hvalid : List.Forall valid_kickoff (List.filter (plays "Real Madrid") Sample.season))
    by (rewrite Hqualifying; repeat constructor; discriminate).
  assert (Hout : teamMatches (fun l => l) Sample.season "Real Madrid"
                 = [Sample.next_march_match; Sample.next_april_match;
                    Sample.next_may_match; Sample.january_match])
    by (vm_compute; reflexivity).
  pose proof (teamMatches_spotlight (fun l => l) Sample.season "Real Madrid" Hteam) as [Hsorted Hsize].
  split; [exact Hteam |]. split; [exact Hqualifying |]. split; [exact Hout |].
  split; [| split].
  - exact (proj1 (proj2 (Hsorted Hvalid)
                   [Sample.next_march_match; Sample.next_april_match]
                   Sample.next_may_match [] Sample.january_match [] Hout)).
  - exact (proj2 (proj2 (Hsorted Hvalid)
                   [Sample.next_march_match] Sample.next_april_match []
                   Sample.next_may_match [Sample.january_match] Hout) eq_refl).
  - exact (proj1 (Hsize (or_introl Hvalid))).
Defined.
(** * Further properties of the hook and of the views *)

(** ** The hook *)

Lemma first_rejection_all_Ok {A} (task : LeagueKey -> result A) (order : list LeagueKey) :
  (forall l, exists x, task l = Ok x) -> first_rejection task order = None.
Proof.
  intros H. induction order as [| l ls IH]; cbn; [reflexivity |].
  destruct (H l) as [x ->]. exact IH.
Qed.

(** A load that succeeds when the leagues settle in one order succeeds with
    the same collection when they settle in any other: the collection is the
    matches of the four documents in the order of the keys of
    [PUBLIC_FILES], not in the order of arrival. *)
Theorem load_result_any_order (now : Date.t) (fetched : LeagueKey -> FetchOutcome)
    (order1 order2 : list LeagueKey) (all : list Match) :
  load_result now fetched order1 = Ok all ->
  load_result now fetched order2 = Ok all
  /\ exists pl ll bl sa : list Match,
       league_task now PremierLeague (fetched PremierLeague) = Ok pl
       /\ league_task now LaLiga (fetched LaLiga) = Ok ll
       /\ league_task now Bundesliga (fetched Bundesliga) = Ok bl
       /\ league_task now SerieA (fetched SerieA) = Ok sa
       /\ all = (pl ++ ll ++ bl ++ sa)%list.
Proof.
  unfold load_result, promise_all.
  destruct (first_rejection (fun l => league_task now l (fetched l)) order1);
    cbn [mbind result_bind]; [discriminate |].
  destruct (map_result (fun l => league_task now l (fetched l)) league_keys)
    as [entries | e] eqn:Hall; cbn [mbind result_bind]; [| discriminate].
  intros [= <-].
  assert (Hok : forall l, exists x, league_task now l (fetched l) = Ok x).
  { intros l. pose proof (map_result_Ok _ _ _ Hall) as Hall2.
    destruct (Forall2_In_left _ _ _ l Hall2 (In_league_keys l)) as (x & _ & Hx). eauto. }
  split.
  - rewrite (first_rejection_all_Ok (fun l => league_task now l (fetched l)) order2 Hok).
    reflexivity.
  - unfold league_keys in Hall. cbn [map_result] in Hall.
    destruct (league_task now PremierLeague (fetched PremierLeague)) as [pl |];
      cbn [mbind result_bind] in Hall; [| discriminate].
    destruct (league_task now LaLiga (fetched LaLiga)) as [ll |];
      cbn [mbind result_bind] in Hall; [| discriminate].
    destruct (league_task now Bundesliga (fetched Bundesliga)) as [bl |];
      cbn [mbind result_bind] in Hall; [| discriminate].
    destruct (league_task now SerieA (fetched SerieA)) as [sa |];
      cbn [mbind result_bind] in Hall; [| discriminate].
    injection Hall as <-. exists pl, ll, bl, sa. cbn [concat]. rewrite app_nil_r. auto.
Qed.

(** The four documents of [Sample.all_fine], settling first to last and last
    to first. *)
Lemma load_result_any_order_witness :
  load_result Sample.now Sample.all_fine league_keys
  = Ok [Sample.london_match; Sample.march_match; Sample.january_match;
        Sample.next_march_match]
  /\ load_result Sample.now Sample.all_fine (rev league_keys)
     = Ok [Sample.london_match; Sample.march_match; Sample.january_match;
           Sample.next_march_match].
Proof.
  assert (H : load_result Sample.now Sample.all_fine league_keys
              = Ok [Sample.london_match; Sample.march_match; Sample.january_match;
                    Sample.next_march_match])
    by (vm_compute; reflexivity).
  split; [exact H |].
  exact (proj1 (load_result_any_order Sample.now Sample.all_fine league_keys
                  (rev league_keys) _ H)).
Defined.

(** The statuses after a tick depend on the instant of that tick alone: a
    tick undoes what the tick before it wrote, and a second tick at the same
    instant changes nothing. *)
Theorem tick_latest (now1 now2 : Date.t) (st : HookState) :
  tick now2 (tick now1 st) = tick now2 st
  /\ tick now2 (tick now2 st) = tick now2 st.
Proof.
  assert (H : forall a b, tick b (tick a st) = tick b st).
  { intros a b. unfold tick. cbn [matches loading error]. rewrite map_map. reflexivity. }
  split; apply H.
Qed.

(** ** The league filter and the groups *)

Lemma sort_engine_Permutation (engine : list Match -> list Match) (l : list Match) :
  (forall l', Permutation (engine l') l') ->
  Permutation (JSArray.sort finished_last engine l) l.
Proof.
  intros H. unfold JSArray.sort.
  destruct (JSArray.consistent finished_last l); [apply sort_Permutation | apply H].
Qed.

(** On an engine whose sort rearranges its input, the league-filtered list
    holds exactly the matches of the collection whose league is selected, or
    all of them when ALL is selected. *)
Theorem filtered_selection (engine : list Match -> list Match) (matches : list Match)
    (selectedLeagues : gset string) (m : Match) :
  (forall l, Permutation (engine l) l) ->
  In m (filtered engine matches selectedLeagues)
  <-> In m matches
      /\ (has selectedLeagues "ALL" = true
          \/ has selectedLeagues (league_name (league m)) = true).
Proof.
  intros Hengine. unfold filtered. split.
  - intros Hin. apply (Permutation_in _ (sort_engine_Permutation engine _ Hengine)) in Hin.
    apply filter_In in Hin as [Hm Hsel]. split; [exact Hm |].
    destruct (has selectedLeagues "ALL"); auto.
  - intros [Hm Hsel].
    apply (Permutation_in _ (Permutation_sym (sort_engine_Permutation engine _ Hengine))).
    apply filter_In. split; [exact Hm |].
    destruct (has selectedLeagues "ALL"); [reflexivity |].
    destruct Hsel as [Hall | Hleague]; [discriminate | exact Hleague].
Qed.

(** With La Liga alone selected, the match of London is left out and the
    match of March is kept. *)
Lemma filtered_selection_witness :
  (forall l : list Match, Permutation ((fun l' => l') l) l)
  /\ ~ In Sample.london_match
       (filtered (fun l => l) [Sample.london_match; Sample.march_match] {["La Liga"]})
  /\ In Sample.march_match
       (filtered (fun l => l) [Sample.london_match; Sample.march_match] {["La Liga"]}).
Proof.
  assert (Hengine : forall l : list Match, Permutation ((fun l' => l') l) l)
    by (intros l; apply Permutation_refl).
  split; [exact Hengine |]. split.
  - intros Hin.
    apply (proj1 (filtered_selection (fun l => l) [Sample.london_match; Sample.march_match]
                    {["La Liga"]} Sample.london_match Hengine)) in Hin.
    destruct Hin as [_ [H | H]]; vm_compute in H; discriminate H.
  - apply (proj2 (filtered_selection (fun l => l) [Sample.london_match; Sample.march_match]
                    {["La Liga"]} Sample.march_match Hengine)).
    split; [cbn; auto |]. right. vm_compute. reflexivity.
Defined.

Lemma groups_nonempty_concat (gs : list (string * list Match)) :
  concat (map snd (List.filter (fun g => negb (Nat.eqb (length (snd g)) 0)) gs))
  = concat (map snd gs).
Proof.
  induction gs as [| [n ms] gs IH]; cbn; [reflexivity |].
  destruct ms; cbn; [exact IH | rewrite IH; reflexivity].
Qed.

Lemma by_league_length (l : list Match) :
  (length (List.filter (fun m => LeagueKey_eqb (league m) PremierLeague) l)
   + (length (List.filter (fun m => LeagueKey_eqb (league m) LaLiga) l)
      + (length (List.filter (fun m => LeagueKey_eqb (league m) Bundesliga) l)
         + length (List.filter (fun m => LeagueKey_eqb (league m) SerieA) l))))%nat
  = length l.
Proof. induction l as [| m l IH]; cbn; [reflexivity |]. destruct (league m); cbn; lia. Qed.

Lemma LeagueKey_eqb_eq (a b : LeagueKey) : LeagueKey_eqb a b = true <-> a = b.
Proof. destruct a, b; cbn; split; congruence. Qed.

Lemma nonempty_existsb {A} (keep : A -> bool) (l : list A) :
  negb (Nat.eqb (length (List.filter keep l)) 0) = existsb keep l.
Proof.
  induction l as [| a l IH]; cbn; [reflexivity |].
  destruct (keep a); cbn; [reflexivity | exact IH].
Qed.

(** The groups of [groupedMatches]: every group is the non-empty list of the
    matches of one league, in the order they have in the filtered list; every
    match of the filtered list is in the group of its league; the leagues
    come in the order of the keys, those without a match left out; and the
    groups hold as many matches as the filtered list. *)
Theorem groupedMatches_groups (filtered : list Match) :
  (forall (leagueName : string) (ms : list Match),
      In (leagueName, ms) (groupedMatches filtered) ->
      ms <> []
      /\ exists l, leagueName = league_name l
                   /\ ms = List.filter (fun m => LeagueKey_eqb (league m) l) filtered)
  /\ (forall m, In m filtered ->
        exists ms, In (league_name (league m), ms) (groupedMatches filtered) /\ In m ms)
  /\ map fst (groupedMatches filtered)
     = map league_name
         (List.filter (fun l => existsb (fun m => LeagueKey_eqb (league m) l) filtered)
            league_keys)
  /\ length (concat (map snd (groupedMatches filtered))) = length filtered.
Proof.
  split; [| split; [| split]].
  - intros leagueName ms Hin. unfold groupedMatches in Hin.
    apply filter_In in Hin as [Hin Hsome]. cbn [snd] in Hsome.
    apply in_map_iff in Hin as (l & [= <- <-] & _). split.
    + intros Hnil. rewrite Hnil in Hsome. discriminate.
    + exists l. split; reflexivity.
  - intros m Hm.
    exists (List.filter (fun m' => LeagueKey_eqb (league m') (league m)) filtered).
    assert (Hin : In m (List.filter (fun m' => LeagueKey_eqb (league m') (league m)) filtered))
      by (apply filter_In; split; [exact Hm | apply LeagueKey_eqb_eq; reflexivity]).
    split; [| exact Hin].
    unfold groupedMatches. apply filter_In. split.
    + apply (in_map (fun l => (league_name l,
                               List.filter (fun m' => LeagueKey_eqb (league m') l) filtered))).
      apply In_league_keys.
    + cbn [snd].
      destruct (List.filter (fun m' => LeagueKey_eqb (league m') (league m)) filtered);
        [destruct Hin | reflexivity].
  - unfold groupedMatches, league_keys. cbn [map List.filter snd].
    rewrite !nonempty_existsb.
    destruct (existsb (fun m => LeagueKey_eqb (league m) PremierLeague) filtered),
      (existsb (fun m => LeagueKey_eqb (league m) LaLiga) filtered),
      (existsb (fun m => LeagueKey_eqb (league m) Bundesliga) filtered),
      (existsb (fun m => LeagueKey_eqb (league m) SerieA) filtered); reflexivity.
  - unfold groupedMatches. rewrite groups_nonempty_concat.
    unfold league_keys. cbn [map snd concat]. rewrite app_nil_r, !length_app.
    apply by_league_length.
Qed.

(** ** The refinement of a league *)

Lemma filter_all {A} (keep : A -> bool) (l : list A) :
  (forall a, In a l -> keep a = true) -> List.filter keep l = l.
Proof.
  induction l as [| a l IH]; cbn; intros H; [reflexivity |].
  rewrite (H a) by auto. f_equal. apply IH. auto.
Qed.

(** The refined list of a league holds matches of the league's list only;
    under the LIVE filter they are all LIVE and under the FINISHED filter all
    FINISHED; under a search text that is not empty once trimmed and
    lower-cased, the lower-cased name of the home or of the away team
    contains it; and with no status filter and no search text the list is
    unchanged. *)
Theorem getFilteredLeagueMatches_refines (toLowerCase : string -> string)
    (leagueStatusFilters : gmap string StatusFilter)
    (leagueSearchQueries : gmap string string)
    (leagueName : string) (matches : list Match) :
  let out :=
    getFilteredLeagueMatches toLowerCase leagueStatusFilters leagueSearchQueries
      leagueName matches in
  let searchQuery :=
    toLowerCase (JSString.trim (default "" (leagueSearchQueries !! leagueName))) in
  (forall m, In m out -> In m matches)
  /\ (leagueStatusFilters !! leagueName = Some FilterLIVE ->
      forall m, In m out -> status m = LIVE)
  /\ (leagueStatusFilters !! leagueName = Some FilterFINISHED ->
      forall m, In m out -> status m = FINISHED)
  /\ (searchQuery <> "" ->
      forall m, In m out ->
        JSString.includes (toLowerCase (name (home (teams (raw m))))) searchQuery = true
        \/ JSString.includes (toLowerCase (name (away (teams (raw m))))) searchQuery = true)
  /\ (default FilterALL (leagueStatusFilters !! leagueName) = FilterALL ->
      searchQuery = "" -> out = matches).
Proof.
  intros out searchQuery. unfold out, getFilteredLeagueMatches. fold searchQuery.
  split; [| split; [| split; [| split]]].
  - intros m Hm. apply filter_In in Hm. tauto.
  - intros Hlive m Hm. apply filter_In in Hm as [_ Hpass]. rewrite Hlive in Hpass.
    unfold passes in Hpass. cbn [default] in Hpass.
    destruct (status m); cbn in Hpass; first [reflexivity | discriminate].
  - intros Hfin m Hm. apply filter_In in Hm as [_ Hpass]. rewrite Hfin in Hpass.
    unfold passes in Hpass. cbn [default] in Hpass.
    destruct (status m); cbn in Hpass; first [reflexivity | discriminate].
  - intros Hquery m Hm. apply filter_In in Hm as [_ Hpass].
    unfold passes in Hpass.
    destruct (match default FilterALL (leagueStatusFilters !! leagueName) with
              | FilterALL => false
              | FilterLIVE => negb (Status_eqb (status m) LIVE)
              | FilterFINISHED => negb (Status_eqb (status m) FINISHED)
              end); [discriminate |].
    destruct (String.eqb_spec searchQuery "") as [Hempty | _]; [contradiction |].
    cbn [negb] in Hpass.
    destruct (JSString.includes (toLowerCase (name (home (teams (raw m))))) searchQuery);
      [auto |].
    destruct (JSString.includes (toLowerCase (name (away (teams (raw m))))) searchQuery);
      [auto | discriminate].
  - intros Hall Hempty. apply filter_all. intros m _.
    unfold passes. rewrite Hall, Hempty. reflexivity.
Qed.

(** ** The pages of a league *)

Lemma chunks_concat {A} (k : nat) (l : list A) :
  (length l <= 6 * k)%nat ->
  concat (map (fun i => take 6 (drop (6 * i) l)) (seq 0 k)) = l.
Proof.
  revert l. induction k as [| k IH]; intros l Hl.
  - destruct l; [reflexivity | cbn in Hl; lia].
  - cbn [seq map concat]. rewrite <- seq_shift, map_map.
    rewrite Nat.mul_0_r, drop_0.
    transitivity (take 6 l ++ drop 6 l)%list; [| apply take_drop].
    f_equal.
    etransitivity; [| apply (IH (drop 6 l)); rewrite length_drop; lia].
    f_equal. apply map_ext. intros i. rewrite drop_drop. do 2 f_equal. lia.
Qed.

(** The pages 1 to [totalPages] of a league, one after the other, are the
    refined list of the league: paging loses no match and shows none twice. *)
Theorem displayMatches_pages (filteredMatches : list Match) :
  concat (map (displayMatches filteredMatches)
            (JSArray.range 1 (totalPages filteredMatches)))
  = filteredMatches.
Proof.
  pose proof (totalPages_bounds filteredMatches) as Hb.
  rewrite (range_steps 1 (totalPages filteredMatches)
             (Z.to_nat (totalPages filteredMatches))) by lia.
  rewrite map_map.
  etransitivity;
    [| apply (chunks_concat (Z.to_nat (totalPages filteredMatches)) filteredMatches); lia].
  f_equal. apply map_ext. intros i.
  rewrite displayMatches_window by lia. do 2 f_equal. lia.
Qed.

Lemma range_In (a b p : Z) : a <= p <= b -> In p (JSArray.range a b).
Proof.
  intros H. unfold JSArray.range. apply in_map_iff.
  exists (Z.to_nat (p - a)). split; [lia | apply in_seq; lia].
Qed.

Ltac pages_done :=
  cbn; repeat split;
  first [lia | reflexivity | apply (f_equal Some), (f_equal Page); lia].

(** For [totalPages >= 1] and a current page in [1..totalPages], the list of
    page numbers has at most seven items, starts with page 1, ends with the
    last page and shows the current page. *)
Theorem getVisiblePages_shows (p total : Z) :
  1 <= total -> 1 <= p <= total ->
  (length (getVisiblePages p total) <= 7)%nat
  /\ head (getVisiblePages p total) = Some (Page 1)
  /\ last (getVisiblePages p total) = Some (Page total)
  /\ In (Page p) (getVisiblePages p total).
Proof.
  intros Htotal Hp.
  assert (Hin : In (Page p) (getVisiblePages p total)).
  { unfold getVisiblePages. destruct (Z.ltb_spec 7 total); cbn [negb].
    - destruct (Z.leb_spec p 4).
      + apply in_or_app. left. apply in_map, range_In. lia.
      + destruct (Z.leb_spec (total - 3) p).
        * apply in_or_app. right. apply in_or_app. right. apply in_map, range_In. lia.
        * apply in_or_app. right. apply in_or_app. right. apply in_or_app. left.
          apply in_map, range_In. lia.
    - apply in_map, range_In. lia. }
  assert (Hrest : (length (getVisiblePages p total) <= 7)%nat
                  /\ head (getVisiblePages p total) = Some (Page 1)
                  /\ last (getVisiblePages p total) = Some (Page total)).
  { unfold getVisiblePages. destruct (Z.ltb_spec 7 total) as [Hbig | Hsmall]; cbn [negb].
    - destruct (Z.leb_spec p 4).
      + rewrite (range_steps 1 5 5) by lia. pages_done.
      + destruct (Z.leb_spec (total - 3) p).
        * rewrite (range_steps (total - 4) total 5) by lia. pages_done.
        * rewrite (range_steps (p - 1) (p + 1) 3) by lia. pages_done.
    - rewrite (range_steps 1 total (Z.to_nat total)) by lia.
      assert (Hcases : exists n, (n < 7)%nat /\ total = Z.of_nat (S n))
        by (exists (Z.to_nat (total - 1)); lia).
      destruct Hcases as (n & Hn & ->). rewrite Nat2Z.id.
      do 7 (destruct n as [| n]; [pages_done |]).
      lia. }
  tauto.
Qed.

(** Twelve pages, the reader on page 6. *)
Lemma getVisiblePages_shows_witness :
  1 <= 12 /\ 1 <= 6 <= 12
  /\ (length (getVisiblePages 6 12) <= 7)%nat
  /\ In (Page 6) (getVisiblePages 6 12).
Proof.
  assert (Htotal : 1 <= 12) by lia.
  assert (Hp : 1 <= 6 <= 12) by lia.
  split; [exact Htotal |]. split; [exact Hp |].
  pose proof (getVisiblePages_shows 6 12 Htotal Hp) as H.
  split; [exact (proj1 H) | exact (proj2 (proj2 (proj2 H)))].
Defined.
